(** * Edit history of the lean-canvas back end (tantan_back)

    A shallow embedding of the versioning code of the repository:
    - [src/crud/projects.py]: [ProjectCRUD] (asyncpg, raw SQL over the tables
      projects / project_members / edit_history / details, the details table
      laid out as eleven text columns);
    - [src/db_operations.py]: the SQLAlchemy helpers (one session and one
      transaction per helper, the details table laid out as one JSON column
      [field]);
    - [src/main.py]: the FastAPI handlers [register_project] and
      [update_canvas] that chain those helpers.

    The database is a record of tables; server-side, non-transactional state
    (the serial sequences and the clock behind [now()]) lives next to it in a
    [world], together with a fault plan: the statement numbers at which the
    database raises.  Code runs in a state-and-exception monad over [world]. *)

From Stdlib Require Import Lia.
From stdpp Require Import base list gmap strings pretty sorting.

Module Canvas.

(** ** Data model ([db_operations.py], classes [UpdateCategory], [Role],
    [Project], [EditHistory], [Detail], [ProjectMember]) *)

Inductive UpdateCategory :=
  | manual | consistency_check | research | interview | rollback.

Inductive Role := admin | editor.

(** Python values found in the request dictionaries ([Dict[str, Any]]). *)
Inductive pyval :=
  | PyNone
  | PyStr (s : string)
  | PyInt (z : Z).

Record project_row := mkProject {
  p_project_id : nat;
  p_user_id : nat;
  p_project_name : string;
  p_created_at : nat
}.

Record member_row := mkMember {
  m_project_id : nat;
  m_user_id : nat;
  m_role : Role
}.

Record edit_row := mkEdit {
  edit_id : nat;
  e_project_id : nat;
  version : nat;
  e_user_id : nat;
  update_category : UpdateCategory;
  update_comment : option string;
  last_updated : nat
}.

(** The [details] table: eleven nullable text columns in [crud/projects.py],
    one JSON column [field] in [db_operations.Detail]. *)
Inductive detail_payload :=
  | Columns (cols : list (option string))
  | JsonField (field : gmap string pyval).

Record detail_row := mkDetail {
  d_edit_id : nat;
  d_payload : detail_payload
}.

(** The tables.  Rows are kept in insertion order; new rows are appended. *)
Record store := mkStore {
  projects : list project_row;
  project_members : list member_row;
  edit_history : list edit_row;
  details : list detail_row
}.

(** The [users] table ([db_operations.User]): the columns the code below
    reads. *)
Record user_row := mkUser {
  u_user_id : nat;
  u_email : string
}.

(** Exceptions the code can meet. *)
Inductive exn :=
  | DBError         (* any error raised by the server or the connection *)
  | DataError       (* asyncpg: a non-str value bound to a text column *)
  | InterfaceError  (* asyncpg: wrong number of query arguments *)
  | AttributeError. (* Python: a missing attribute *)

(** The database server: the tables (transactional), the serial sequences and
    the clock (not transactional: a rolled-back INSERT still consumes its
    serial value), and the fault plan with the running statement counter.
    The [users] table, which none of the code below writes, is kept apart
    from the tables it writes; [client_clock] is the application host's
    clock behind Python's [datetime.now()]. *)
Record world := mkWorld {
  db : store;
  next_edit_id : nat;
  next_project_id : nat;
  clock : nat;
  faults : list nat;
  stmt_no : nat;
  users : list user_row;
  client_clock : nat
}.

Definition set_db (w : world) (s : store) : world :=
  mkWorld s (next_edit_id w) (next_project_id w) (clock w) (faults w) (stmt_no w)
          (users w) (client_clock w).

(** ** The monad *)

Definition M (A : Type) : Type := world -> (exn + A) * world.

Global Instance M_ret : MRet M := fun A a w => (inr a, w).
Global Instance M_bind : MBind M := fun A B k m w =>
  match m w with
  | (inl e, w') => (inl e, w')
  | (inr a, w') => k a w'
  end.

Definition raise {A} (e : exn) : M A := fun w => (inl e, w).

(** [try: ... except Exception as e: return h(e)] *)
Definition catch_all {A} (m : M A) (h : exn -> A) : M A := fun w =>
  match m w with
  | (inl e, w') => (inr (h e), w')
  | r => r
  end.

(** One SQL statement sent to the server: it raises [DBError] when the fault
    plan names its number. *)
Definition stmt : M unit := fun w =>
  let w' := mkWorld (db w) (next_edit_id w) (next_project_id w) (clock w)
                    (faults w) (S (stmt_no w)) (users w) (client_clock w) in
  if existsb (Nat.eqb (stmt_no w)) (faults w) then (inl DBError, w')
  else (inr tt, w').

Definition get_db : M store := fun w => (inr (db w), w).
Definition put_db (s : store) : M unit := fun w => (inr tt, set_db w s).

(** [now()]: the transaction timestamp, read from the clock at BEGIN. *)
Definition tick : M nat := fun w =>
  (inr (clock w), mkWorld (db w) (next_edit_id w) (next_project_id w)
                          (S (clock w)) (faults w) (stmt_no w) (users w) (client_clock w)).

Definition fresh_edit_id : M nat := fun w =>
  (inr (next_edit_id w), mkWorld (db w) (S (next_edit_id w)) (next_project_id w)
                                 (clock w) (faults w) (stmt_no w) (users w) (client_clock w)).

Definition fresh_project_id : M nat := fun w =>
  (inr (next_project_id w), mkWorld (db w) (next_edit_id w) (S (next_project_id w))
                                    (clock w) (faults w) (stmt_no w) (users w)
                                    (client_clock w)).

(** The [users] table, read by the foreign-key checks and [get_edit_history]. *)
Definition get_users : M (list user_row) := fun w => (inr (users w), w).

(** Python's [datetime.now()] on the application host. *)
Definition datetime_now : M nat := fun w =>
  (inr (client_clock w), mkWorld (db w) (next_edit_id w) (next_project_id w)
                                 (clock w) (faults w) (stmt_no w) (users w)
                                 (S (client_clock w))).

(** BEGIN; body; COMMIT.  On an exception the tables are restored to their
    state at BEGIN and the exception is re-raised
    ([async with conn.transaction()] and SQLAlchemy's [with db.begin()]). *)
Definition tx_begin : M nat := stmt;; tick.
Definition tx_commit : M unit := stmt.

Definition transaction {A} (body : nat -> M A) : M A := fun w =>
  let snapshot := db w in
  match (ts ← tx_begin; a ← body ts; tx_commit;; mret a) w with
  | (inl e, w') => (inl e, set_db w' snapshot)
  | r => r
  end.

(** ** SQL statements used by [crud/projects.py] *)

Definition fields : list string :=
  ["problem"; "customer_segments"; "unique_value_proposition";
   "solution"; "channels"; "revenue_streams"; "cost_structure";
   "key_metrics"; "unfair_advantage"; "early_adopters"; "existing_alternatives"].

(** [canvas_data.get(name)] *)
Definition canvas_get (canvas_data : gmap string pyval) (name : string) : pyval :=
  default PyNone (canvas_data !! name).

Definition rows_of (project_id : nat) (l : list edit_row) : list edit_row :=
  filter (fun r => e_project_id r = project_id) l.

Definition versions_of (project_id : nat) (s : store) : list nat :=
  map version (rows_of project_id (edit_history s)).

Definition is_member (project_id user_id : nat) (s : store) : bool :=
  existsb (fun m => Nat.eqb (m_project_id m) project_id && Nat.eqb (m_user_id m) user_id)
          (project_members s).

Definition project_exists (project_id : nat) (s : store) : bool :=
  existsb (fun p => Nat.eqb (p_project_id p) project_id) (projects s).

Definition edit_exists (eid : nat) (s : store) : bool :=
  existsb (fun r => Nat.eqb (edit_id r) eid) (edit_history s).

Definition details_exist (eid : nat) (s : store) : bool :=
  existsb (fun d => Nat.eqb (d_edit_id d) eid) (details s).

(** [COALESCE(MAX(version), 0)] over the project's rows *)
Definition max_version (project_id : nat) (s : store) : nat :=
  foldr Nat.max 0 (versions_of project_id s).

(** The foreign keys to [users]. *)
Definition user_exists (user_id : nat) (us : list user_row) : bool :=
  existsb (fun x => Nat.eqb (u_user_id x) user_id) us.

(** The length in characters of a UTF-8 encoded string: the bytes that are not
    continuation bytes ([10xxxxxx]). *)
Fixpoint utf8_length (t : string) : nat :=
  match t with
  | EmptyString => 0
  | String c rest =>
      let n := Ascii.nat_of_ascii c in
      (if (128 <=? n) && (n <=? 191) then 0 else 1) + utf8_length rest
  end.

(** The server's check of a [VARCHAR(n)] column. *)
Definition varchar_fits (n : nat) (t : string) : bool := utf8_length t <=? n.

(** [update_comment VARCHAR(255)], nullable. *)
Definition comment_fits (comment : option string) : bool :=
  match comment with None => true | Some t => varchar_fits 255 t end.

(** The connection itself ([get_async_connection]) may fail. *)
Definition get_async_connection : M unit := stmt.

(** [SELECT 1 FROM project_members WHERE project_id = $1 AND user_id = $2] *)
Definition sql_member_exists (project_id user_id : nat) : M bool :=
  stmt;; s ← get_db; mret (is_member project_id user_id s).

Definition sql_max_version (project_id : nat) : M nat :=
  stmt;; s ← get_db; mret (max_version project_id s).

(** [INSERT INTO edit_history ... RETURNING edit_id].  The constraints the
    table declares: the foreign keys to [projects] and [users], NOT NULL, and
    [update_comment VARCHAR(255)]; there is no uniqueness on
    [(project_id, version)].  The serial default is drawn before the checks:
    a failing INSERT consumes its [edit_id]. *)
Definition sql_insert_edit (project_id new_version user_id : nat)
    (cat : UpdateCategory) (comment : option string) (ts : nat) : M nat :=
  stmt;;
  eid ← fresh_edit_id;
  s ← get_db;
  us ← get_users;
  if project_exists project_id s && user_exists user_id us && comment_fits comment then
    put_db (mkStore (projects s) (project_members s)
              (edit_history s ++ [mkEdit eid project_id new_version user_id cat comment ts])
              (details s));;
    mret eid
  else raise DBError.

(** [INSERT INTO projects (user_id, project_name, created_at) ... RETURNING
    project_id]: the foreign key to [users] and [project_name VARCHAR(255)];
    the serial default is drawn first. *)
Definition sql_insert_project (user_id : nat) (project_name : string) (created_at : nat)
    : M nat :=
  stmt;;
  pid ← fresh_project_id;
  s ← get_db;
  us ← get_users;
  if user_exists user_id us && varchar_fits 255 project_name then
    put_db (mkStore (projects s ++ [mkProject pid user_id project_name created_at])
              (project_members s) (edit_history s) (details s));;
    mret pid
  else raise DBError.

(** [INSERT INTO project_members (project_id, user_id, role)]: the foreign keys
    to [projects] and [users], and the primary key [(project_id, user_id)]. *)
Definition sql_insert_member (project_id user_id : nat) (r : Role) : M unit :=
  stmt;;
  s ← get_db;
  us ← get_users;
  if project_exists project_id s && user_exists user_id us
     && negb (is_member project_id user_id s) then
    put_db (mkStore (projects s) (project_members s ++ [mkMember project_id user_id r])
              (edit_history s) (details s))
  else raise DBError.

(** Binding a Python value to a nullable text column. *)
Definition text_column (v : pyval) : M (option string) :=
  match v with
  | PyNone => mret None
  | PyStr t => mret (Some t)
  | PyInt _ => raise DataError
  end.

Definition to_pyval (v : option string) : pyval :=
  match v with None => PyNone | Some t => PyStr t end.

(** Inserting a details row: primary key [edit_id], foreign key to
    [edit_history]. *)
Definition sql_insert_details (eid : nat) (payload : detail_payload) : M unit :=
  stmt;;
  s ← get_db;
  if edit_exists eid s && negb (details_exist eid s) then
    put_db (mkStore (projects s) (project_members s) (edit_history s)
              (details s ++ [mkDetail eid payload]))
  else raise DBError.

(** [INSERT INTO details (edit_id, problem, ..., existing_alternatives)
    VALUES ($1, ..., $12)] *)
Definition sql_insert_details_cols (eid : nat) (vals : list pyval) : M unit :=
  cols ← mapM text_column vals;
  sql_insert_details eid (Columns cols).

(** ** [ProjectCRUD] results *)

Inductive message :=
  | MsgNoAccess               (* "このプロジェクトへのアクセス権限がありません" *)
  | MsgCreateFailed (e : exn) (* "プロジェクト作成に失敗しました: {e}" *)
  | MsgUpdateFailed (e : exn) (* "プロジェクト更新に失敗しました: {e}" *)
  | MsgTargetNotFound         (* "ロールバック対象のバージョンが見つかりません" *)
  | MsgRollbackFailed (e : exn) (* "ロールバックに失敗しました: {e}" *)
  | MsgCompareNotFound        (* "比較対象のバージョンが見つかりません" *)
  | MsgCompareFailed (e : exn). (* "バージョン比較に失敗しました: {e}" *)

(** The returned dictionaries: ["success": True, ...] or
    ["success": False, "message": ...]. *)
Inductive crud_result :=
  | CSuccess (edit_id new_version : nat)
  | CFailure (msg : message).

Inductive create_result :=
  | CreateSuccess (project_id edit_id : nat)
  | CreateFailure (msg : message).

Inductive rollback_result :=
  | RSuccess (edit_id new_version target_version : nat)
  | RFailure (msg : message).

(** ** [ProjectCRUD.create_project] *)
Definition create_project (user_id : nat) (project_name : string)
    (canvas_data : gmap string pyval) (update_comment : option string) : M create_result :=
  catch_all (
    get_async_connection;;
    '(pid, eid) ← transaction (fun ts =>
        created_at ← datetime_now;
        pid ← sql_insert_project user_id project_name created_at;
        eid ← sql_insert_edit pid 1 user_id manual
                (Some (match update_comment with
                       | Some c => if String.eqb c "" then "初期作成" else c
                       | None => "初期作成" end)) ts;
        sql_insert_details_cols eid (map (canvas_get canvas_data) fields);;
        sql_insert_member pid user_id admin;;
        mret (pid, eid));
    mret (CreateSuccess pid eid))
  (fun e => CreateFailure (MsgCreateFailed e)).

(** ** [ProjectCRUD.update_project]

    The transaction body is split in the read of the current maximum
    ([up_read]) and the two inserts ([up_write]); the interleaving model
    below schedules these same pieces. *)
Definition up_read (project_id : nat) : M nat := sql_max_version project_id.

Definition up_write (project_id user_id : nat) (canvas_data : gmap string pyval)
    (cat : UpdateCategory) (update_comment : option string) (ts max_version : nat)
    : M (nat * nat) :=
  let new_version := max_version + 1 in
  eid ← sql_insert_edit project_id new_version user_id cat update_comment ts;
  sql_insert_details_cols eid (map (canvas_get canvas_data) fields);;
  mret (eid, new_version).

Definition update_project (project_id user_id : nat) (canvas_data : gmap string pyval)
    (cat : UpdateCategory) (update_comment : option string) : M crud_result :=
  catch_all (
    get_async_connection;;
    access ← sql_member_exists project_id user_id;
    if negb access then mret (CFailure MsgNoAccess) else
    '(eid, v) ← transaction (fun ts =>
        mv ← up_read project_id;
        up_write project_id user_id canvas_data cat update_comment ts mv);
    mret (CSuccess eid v))
  (fun e => CFailure (MsgUpdateFailed e)).

(** ** [ProjectCRUD.rollback_to_version] *)

Definition lookup_edit (eid : nat) (s : store) : option edit_row :=
  List.find (fun r => Nat.eqb (edit_id r) eid) (edit_history s).

Definition lookup_details (eid : nat) (s : store) : option detail_payload :=
  d_payload <$> List.find (fun d => Nat.eqb (d_edit_id d) eid) (details s).

(** [SELECT d.problem, ..., d.existing_alternatives, eh.version AS target_version
     FROM details d JOIN edit_history eh ON d.edit_id = eh.edit_id
     WHERE d.edit_id = $1 AND eh.project_id = $2].  Column names of the
    eleven-column layout do not exist in the JSON layout: the server raises. *)
Definition sql_fetch_target (eid project_id : nat)
    : M (option (list (option string) * nat)) :=
  stmt;;
  s ← get_db;
  match lookup_details eid s, lookup_edit eid s with
  | Some (Columns cols), Some r =>
      if Nat.eqb (e_project_id r) project_id then mret (Some (cols, version r))
      else mret None
  | Some (JsonField _), _ => raise DBError
  | _, _ => mret None
  end.

(** [rollback_comment or f"バージョン{target_version}にロールバック"] *)
Definition rollback_default_comment (target_version : nat) : string :=
  "バージョン" +:+ pretty target_version +:+ "にロールバック".

Definition py_or_comment (c : option string) (dflt : string) : string :=
  match c with
  | Some t => if String.eqb t "" then dflt else t
  | None => dflt
  end.

Definition rollback_to_version (project_id eid user_id : nat)
    (rollback_comment : option string) : M rollback_result :=
  catch_all (
    get_async_connection;;
    access ← sql_member_exists project_id user_id;
    if negb access then mret (RFailure MsgNoAccess) else
    target_details ← sql_fetch_target eid project_id;
    match target_details with
    | None => mret (RFailure MsgTargetNotFound)
    | Some (cols, target_version) =>
        '(new_edit_id, new_version) ← transaction (fun ts =>
            max_version ← sql_max_version project_id;
            let new_version := max_version + 1 in
            new_edit_id ← sql_insert_edit project_id new_version user_id rollback
                (Some (py_or_comment rollback_comment
                         (rollback_default_comment target_version))) ts;
            sql_insert_details_cols new_edit_id (map to_pyval cols);;
            mret (new_edit_id, new_version));
        mret (RSuccess new_edit_id new_version target_version)
    end)
  (fun e => RFailure (MsgRollbackFailed e)).

(** ** [ProjectCRUD.compare_canvas_versions] *)

(** [conn.fetchrow("SELECT problem, ... FROM details WHERE edit_id = $k", *args)].
    The server prepares the query with parameters [$1 .. $k] ([k] is the
    highest placeholder of its text); a parameter [$i] the text never uses
    has no type the server can infer, and the Parse step fails
    ([IndeterminateDatatypeError], a server error).  Once prepared, asyncpg
    raises when the number of arguments passed differs from the number the
    statement expects. *)
Definition sql_fetch_details_cols (placeholder : nat) (args : list nat)
    : M (option (list (option string))) :=
  stmt;;
  if negb (Nat.eqb placeholder 1) then raise DBError else
  if negb (Nat.eqb (length args) placeholder) then raise InterfaceError else
  match args !! (placeholder - 1) with
  | None => raise InterfaceError
  | Some eid =>
      s ← get_db;
      match lookup_details eid s with
      | None => mret None
      | Some (Columns cols) => mret (Some cols)
      | Some (JsonField _) => raise DBError
      end
  end.

Record diff_entry := mkDiff {
  df_field : string;
  df_version1 : string;
  df_version2 : string;
  df_changed : bool
}.

(** [version[field] or ""] *)
Definition field_value (cols : list (option string)) (i : nat) : string :=
  default "" (mjoin (cols !! i)).

(** The loop [for field in fields: differences[field] = {...}] *)
Definition differences (v1 v2 : list (option string)) : list diff_entry :=
  imap (fun i f =>
          mkDiff f (field_value v1 i) (field_value v2 i)
                 (negb (String.eqb (field_value v1 i) (field_value v2 i))))
       fields.

Inductive compare_result :=
  | CmpSuccess (version1 version2 : list (option string)) (diffs : list diff_entry)
  | CmpFailure (msg : message).

Definition compare_canvas_versions (project_id edit_id1 edit_id2 : nat)
    : M compare_result :=
  catch_all (
    get_async_connection;;
    version1 ← sql_fetch_details_cols 1 [edit_id1];
    (* the second query reads "WHERE edit_id = $2" with the single argument
       [edit_id2] *)
    version2 ← sql_fetch_details_cols 2 [edit_id2];
    match version1, version2 with
    | Some v1, Some v2 => mret (CmpSuccess v1 v2 (differences v1 v2))
    | _, _ => mret (CmpFailure MsgCompareNotFound)
    end)
  (fun e => CmpFailure (MsgCompareFailed e)).

(** ** [ProjectCRUD.get_project_latest] *)

(** [ORDER BY key DESC LIMIT 1]: a row with the greatest key (the first such
    row in table order). *)
Definition argmax_by (key : edit_row -> nat) (l : list edit_row) : option edit_row :=
  foldl (fun acc r =>
           match acc with
           | None => Some r
           | Some b => if Nat.ltb (key b) (key r) then Some r else Some b
           end) None l.

Definition project_name_of (project_id : nat) (s : store) : option string :=
  p_project_name <$> List.find (fun p => Nat.eqb (p_project_id p) project_id)
                                    (projects s).

Record latest_view := mkLatest {
  lv_project_id : nat;
  lv_project_name : string;
  lv_current_version : nat;
  lv_last_updated : nat;
  lv_update_category : UpdateCategory;
  lv_update_comment : option string;
  lv_canvas_data : list (string * option string)
}.

(** [SELECT eh.*, p.project_name ... FROM edit_history eh JOIN projects p ...
     WHERE eh.project_id = $1 ORDER BY eh.version DESC LIMIT 1] *)
Definition sql_latest_by_version (project_id : nat)
    : M (option (edit_row * string)) :=
  stmt;;
  s ← get_db;
  match project_name_of project_id s with
  | None => mret None
  | Some name =>
      mret ((fun r => (r, name)) <$> argmax_by version (rows_of project_id (edit_history s)))
  end.

Definition get_project_latest (project_id user_id : nat) : M (option latest_view) :=
  catch_all (
    get_async_connection;;
    access ← sql_member_exists project_id user_id;
    if negb access then mret None else
    eh ← sql_latest_by_version project_id;
    match eh with
    | None => mret None
    | Some (r, name) =>
        det ← sql_fetch_details_cols 1 [edit_id r];
        let canvas_data := match det with Some cols => zip fields cols | None => [] end in
        mret (Some (mkLatest project_id name (version r) (last_updated r)
                      (update_category r) (update_comment r) canvas_data))
    end)
  (fun _ => None).

(** ** SQLAlchemy helpers of [db_operations.py]

    Each helper opens its own session and runs [with db.begin(): ...]: one
    transaction per helper, committed when the helper returns.  Each helper
    below catches its exceptions and returns a default value ([create_tables]
    and [get_all_interview_notes], not modelled here, do not). *)

(** [get_latest_version]: [order_by(EditHistory.last_updated.desc()).limit(1)] *)
Definition get_latest_version (project_id : nat) : M (option nat) :=
  catch_all (transaction (fun _ =>
    stmt;;
    s ← get_db;
    mret (version <$> argmax_by last_updated (rows_of project_id (edit_history s)))))
  (fun _ => None).

(** [get_latest_edit_id]: same query, returns [edit_id] *)
Definition get_latest_edit_id (project_id : nat) : M (option nat) :=
  catch_all (transaction (fun _ =>
    stmt;;
    s ← get_db;
    mret (edit_id <$> argmax_by last_updated (rows_of project_id (edit_history s)))))
  (fun _ => None).

(** [insert_project]: returns the new [project_id], [None] on error;
    [created_at] is the server default [now()]. *)
Definition insert_project (user_id : nat) (project_name : string) : M (option nat) :=
  catch_all (transaction (fun ts =>
    pid ← sql_insert_project user_id project_name ts;
    mret (Some pid)))
  (fun _ => None).

(** [insert_edit_history]: returns the new [edit_id], [0] on error.
    [if update_comment: values["update_comment"] = update_comment]; a [None]
    project id violates NOT NULL (its serial value is drawn all the same). *)
Definition insert_edit_history (project_id : option nat) (new_version user_id : nat)
    (cat : UpdateCategory) (update_comment : option string) : M nat :=
  let comment := match update_comment with
                 | Some c => if String.eqb c "" then None else Some c
                 | None => None end in
  catch_all (transaction (fun ts =>
    match project_id with
    | None => stmt;; _ ← fresh_edit_id; raise DBError
    | Some pid => sql_insert_edit pid new_version user_id cat comment ts
    end))
  (fun _ => 0).

(** [insert_canvas_details]: [True] on success, [False] on error *)
Definition insert_canvas_details (eid : nat) (field : gmap string pyval) : M bool :=
  catch_all (transaction (fun _ => sql_insert_details eid (JsonField field);; mret true))
  (fun _ => false).

(** ** FastAPI handlers of [main.py] *)

(** [POST /projects] ([register_project]): three helpers, three transactions. *)
Definition register_project (user_id : nat) (project_name : string)
    (field : gmap string pyval) : M (option nat * nat * bool) :=
  project_id ← insert_project user_id project_name;
  eid ← insert_edit_history project_id 1 user_id manual (Some "初回登録");
  result ← insert_canvas_details eid field;
  mret (project_id, eid, result).

(** [db_operations.ProjectUpdateRequest]: the fields it declares. *)
Record ProjectUpdateRequest := mkUpdateRequest {
  rq_project_id : nat;
  rq_user_id : nat;
  rq_update_comment : string;
  rq_field : gmap string pyval
}.

(** [request.update_category]: the model declares no such field, so the
    attribute lookup raises. *)
Definition request_update_category (request : ProjectUpdateRequest) : M UpdateCategory :=
  raise AttributeError.

(** The handler's outcome: the returned dictionary, or an [HTTPException]. *)
Inductive http_result :=
  | HttpOk
  | HttpError (status_code : nat).

(** [POST /projects/{project_id}/latest] ([update_canvas]) *)
Definition update_canvas (request : ProjectUpdateRequest) : M http_result :=
  catch_all (
    v ← get_latest_version (rq_project_id request);
    let v := default 0 v in
    (* arguments are evaluated left to right before the call *)
    cat ← request_update_category request;
    eid ← insert_edit_history (Some (rq_project_id request)) (v + 1)
            (rq_user_id request) cat (Some (rq_update_comment request));
    if Nat.eqb eid 0 then mret (HttpError 500) else
    success ← insert_canvas_details eid (rq_field request);
    if negb success then mret (HttpError 500) else mret HttpOk)
  (fun _ => HttpError 500).

(** ** Concurrent writers

    Two requests run [update_project] on the shared server.  The points at
    which a transaction meets the shared tables are its BEGIN (which fixes
    [now()]), its read of [COALESCE(MAX(version), 0)], and its two inserts,
    published together at COMMIT.  A writer advances through these phases;
    a schedule says which writer moves next. *)

Inductive phase :=
  | PStart
  | PBegun (ts : nat)
  | PRead (ts max_version : nat)
  | PDone (r : crud_result).

Record writer := mkWriter {
  wr_project : nat;
  wr_user : nat;
  wr_canvas : gmap string pyval;
  wr_cat : UpdateCategory;
  wr_comment : option string;
  wr_phase : phase
}.

Definition with_phase (t : writer) (ph : phase) : writer :=
  mkWriter (wr_project t) (wr_user t) (wr_canvas t) (wr_cat t) (wr_comment t) ph.

Definition writer_step (t : writer) : M writer :=
  match wr_phase t with
  | PStart =>
      get_async_connection;;
      access ← sql_member_exists (wr_project t) (wr_user t);
      if negb access then mret (with_phase t (PDone (CFailure MsgNoAccess))) else
      ts ← tx_begin;
      mret (with_phase t (PBegun ts))
  | PBegun ts =>
      mv ← up_read (wr_project t);
      mret (with_phase t (PRead ts mv))
  | PRead ts mv =>
      '(eid, v) ← up_write (wr_project t) (wr_user t) (wr_canvas t) (wr_cat t)
                    (wr_comment t) ts mv;
      tx_commit;;
      mret (with_phase t (PDone (CSuccess eid v)))
  | PDone _ => mret t
  end.

(** [true] moves the first writer, [false] the second. *)
Fixpoint run_schedule (sched : list bool) (a b : writer) : M (writer * writer) :=
  match sched with
  | [] => mret (a, b)
  | true :: rest => a' ← writer_step a; run_schedule rest a' b
  | false :: rest => b' ← writer_step b; run_schedule rest a b'
  end.


(** ** The other operations of [ProjectCRUD] *)

(** [ORDER BY key DESC]: a stable sort, largest key first.  The server may
    order rows with equal keys either way; no statement below depends on it. *)
Definition key_ge {A} (key : A -> nat) : relation A := fun x y => key y <= key x.

Global Instance key_ge_dec {A} (key : A -> nat) : RelDecision (key_ge key) :=
  fun x y => decide (key y <= key x).

Definition order_desc {A} (key : A -> nat) (l : list A) : list A :=
  merge_sort (key_ge key) l.

(** A row of [get_user_projects]: [p.project_id, p.project_name, p.created_at,
    eh.last_updated, eh.version AS current_version] *)
Record project_summary := mkSummary {
  ps_project_id : nat;
  ps_project_name : string;
  ps_created_at : nat;
  ps_last_updated : nat;
  ps_current_version : nat
}.

(** [FROM projects p JOIN project_members pm ON p.project_id = pm.project_id
     JOIN edit_history eh ON p.project_id = eh.project_id
     WHERE pm.user_id = $1 AND eh.version = (SELECT MAX(version) FROM
     edit_history WHERE project_id = p.project_id)] *)
Definition user_project_rows (user_id : nat) (s : store) : list project_summary :=
  p ← projects s;
  _ ← filter (fun m => m_project_id m = p_project_id p /\ m_user_id m = user_id)
             (project_members s);
  eh ← filter (fun r => e_project_id r = p_project_id p /\
                        version r = max_version (p_project_id p) s)
              (edit_history s);
  [mkSummary (p_project_id p) (p_project_name p) (p_created_at p)
             (last_updated eh) (version eh)].

(** [ProjectCRUD.get_user_projects]: [ORDER BY eh.last_updated DESC]; [[]] on
    any error. *)
Definition get_user_projects (user_id : nat) : M (list project_summary) :=
  catch_all (
    get_async_connection;;
    stmt;;
    s ← get_db;
    mret (order_desc ps_last_updated (user_project_rows user_id s)))
  (fun _ => []).

(** A row of [get_edit_history]: [eh.edit_id, eh.version, eh.last_updated,
    eh.update_category, eh.update_comment, u.email AS user_email] *)
Record history_entry := mkHistory {
  he_edit_id : nat;
  he_version : nat;
  he_last_updated : nat;
  he_update_category : UpdateCategory;
  he_update_comment : option string;
  he_user_email : string
}.

(** [FROM edit_history eh JOIN users u ON eh.user_id = u.user_id
     WHERE eh.project_id = $1] *)
Definition history_rows (users : list user_row) (project_id : nat) (s : store)
    : list history_entry :=
  r ← rows_of project_id (edit_history s);
  usr ← filter (fun x => u_user_id x = e_user_id r) users;
  [mkHistory (edit_id r) (version r) (last_updated r) (update_category r)
             (update_comment r) (u_email usr)].

(** [ProjectCRUD.get_edit_history]: membership check, then
    [ORDER BY eh.version DESC]; [[]] without access or on any error. *)
Definition get_edit_history (project_id user_id : nat)
    : M (list history_entry) :=
  catch_all (
    get_async_connection;;
    access ← sql_member_exists project_id user_id;
    if negb access then mret [] else
    stmt;;
    s ← get_db;
    us ← get_users;
    mret (order_desc he_version (history_rows us project_id s)))
  (fun _ => []).

(** What [DELETE FROM projects] does to the rows that reference the project:
    the tables declared in [db_operations.py] give [project_members.project_id]
    and [edit_history.project_id] a plain foreign key (the server refuses the
    delete), while [delete_project] is written for a schema with
    [ON DELETE CASCADE]. *)
Inductive fk_action :=
  | NoAction
  | Cascade.

Definition is_admin (project_id user_id : nat) (s : store) : bool :=
  existsb (fun m => Nat.eqb (m_project_id m) project_id && Nat.eqb (m_user_id m) user_id &&
                    match m_role m with admin => true | editor => false end)
          (project_members s).

(** [SELECT 1 FROM project_members WHERE project_id = $1 AND user_id = $2
     AND role = 'admin'] *)
Definition sql_admin_exists (project_id user_id : nat) : M bool :=
  stmt;; s ← get_db; mret (is_admin project_id user_id s).

Definition project_referenced (project_id : nat) (s : store) : bool :=
  existsb (fun m => Nat.eqb (m_project_id m) project_id) (project_members s) ||
  existsb (fun r => Nat.eqb (e_project_id r) project_id) (edit_history s).

(** The project's rows and, through [details.edit_id], its details rows
    removed. *)
Definition delete_cascade (project_id : nat) (s : store) : store :=
  let gone := map edit_id (rows_of project_id (edit_history s)) in
  mkStore (filter (fun p => p_project_id p <> project_id) (projects s))
          (filter (fun m => m_project_id m <> project_id) (project_members s))
          (filter (fun r => e_project_id r <> project_id) (edit_history s))
          (filter (fun d => d_edit_id d ∉ gone) (details s)).

(** [DELETE FROM projects WHERE project_id = $1] *)
Definition sql_delete_project (on_delete : fk_action) (project_id : nat) : M unit :=
  stmt;;
  s ← get_db;
  match on_delete with
  | Cascade => put_db (delete_cascade project_id s)
  | NoAction =>
      if project_referenced project_id s then raise DBError
      else put_db (mkStore (filter (fun p => p_project_id p <> project_id) (projects s))
                           (project_members s) (edit_history s) (details s))
  end.

Inductive delete_message :=
  | MsgNoDeletePermission        (* "削除権限がありません" *)
  | MsgDeleteFailed (e : exn).   (* "プロジェクト削除に失敗しました: {e}" *)

Inductive delete_result :=
  | DSuccess                     (* "プロジェクトが削除されました" *)
  | DFailure (msg : delete_message).

(** [ProjectCRUD.delete_project] *)
Definition delete_project (on_delete : fk_action) (project_id user_id : nat)
    : M delete_result :=
  catch_all (
    get_async_connection;;
    access ← sql_admin_exists project_id user_id;
    if negb access then mret (DFailure MsgNoDeletePermission) else
    transaction (fun _ => sql_delete_project on_delete project_id);;
    mret DSuccess)
  (fun e => DFailure (MsgDeleteFailed e)).

(** ** More SQLAlchemy helpers of [db_operations.py] and their handler *)

(** [detail.field] of a row; the eleven-column layout has no [field] column
    and the server refuses the query. *)
Definition json_field (d : detail_row) : M (nat * gmap string pyval) :=
  match d_payload d with
  | JsonField f => mret (d_edit_id d, f)
  | Columns _ => raise DBError
  end.

(** [{detail.edit_id: detail.field for detail in result}]: a later row
    overwrites an earlier one with the same key. *)
Definition dict_of {V} (kvs : list (nat * V)) : gmap nat V :=
  foldl (fun m kv => <[kv.1 := kv.2]> m) ∅ kvs.

(** [get_canvas_details]: [select(Detail).filter(Detail.edit_id == edit_id)];
    a Python [None] becomes [IS NULL], which no row matches. *)
Definition get_canvas_details (eid : option nat)
    : M (option (gmap nat (gmap string pyval))) :=
  catch_all (transaction (fun _ =>
    stmt;;
    s ← get_db;
    result ← mapM json_field (filter (fun d => Some (d_edit_id d) = eid) (details s));
    match result with
    | [] => mret None
    | _ => mret (Some (dict_of result))
    end))
  (fun _ => None).

(** [get_project_by_id]: [db.query(Project).filter(Project.project_id ==
    project_id).first()]; the dictionary holds the row's four columns. *)
Definition get_project_by_id (project_id : nat) : M (option project_row) :=
  catch_all (transaction (fun _ =>
    stmt;;
    s ← get_db;
    mret (List.find (fun p => Nat.eqb (p_project_id p) project_id) (projects s))))
  (fun _ => None).

(** [GET /projects/{project_id}/latest] ([get_latest_canvas]) *)
Definition get_latest_canvas (project_id : nat)
    : M (option (gmap nat (gmap string pyval))) :=
  eid ← get_latest_edit_id project_id;
  get_canvas_details eid.

(** [db_operations.get_user_projects] (used by [GET /api/projects]):
    [db.query(Project).filter(Project.user_id == user_id).all()], the
    projects whose owner column is the user; [[]] on any error.  Named apart
    from [ProjectCRUD.get_user_projects] above.  The query has no ORDER BY:
    the server returns the rows in the order its scan meets them, which
    [scan] stands for. *)
Module DbOperations.

Definition get_user_projects (scan : list project_row -> list project_row)
    (user_id : nat) : M (list (nat * string * nat)) :=
  catch_all (
    stmt;;
    s ← get_db;
    mret (map (fun p => (p_project_id p, p_project_name p, p_created_at p))
              (filter (fun p => p_user_id p = user_id) (scan (projects s)))))
  (fun _ => []).

End DbOperations.

(** ** Helpers for the statements below *)

Definition add_edit (s : store) (r : edit_row) : store :=
  mkStore (projects s) (project_members s) (edit_history s ++ [r]) (details s).

Definition add_detail (s : store) (d : detail_row) : store :=
  mkStore (projects s) (project_members s) (edit_history s) (details s ++ [d]).

(** The value stored for a Python value bound to a text column. *)
Definition column_of (v : pyval) : option string :=
  match v with PyStr t => Some t | _ => None end.

Definition new_columns (canvas_data : gmap string pyval) : list (option string) :=
  map column_of (map (canvas_get canvas_data) fields).

Definition orphan_edits (s : store) : list edit_row :=
  filter (fun r => details_exist (edit_id r) s = false) (edit_history s).

(** Sequential version-creating calls on one project. *)
Inductive version_op :=
  | OpUpdate (user_id : nat) (canvas_data : gmap string pyval)
             (cat : UpdateCategory) (update_comment : option string)
  | OpRollback (target_edit_id user_id : nat) (rollback_comment : option string).

Definition run_op (project_id : nat) (o : version_op) : M bool :=
  match o with
  | OpUpdate u cd cat cm =>
      r ← update_project project_id u cd cat cm;
      mret (match r with CSuccess _ _ => true | CFailure _ => false end)
  | OpRollback eid u cm =>
      r ← rollback_to_version project_id eid u cm;
      mret (match r with RSuccess _ _ _ => true | RFailure _ => false end)
  end.

(** Runs the calls one after the other; returns the number that succeeded. *)
Fixpoint run_ops (project_id : nat) (os : list version_op) : M nat :=
  match os with
  | [] => mret 0
  | o :: rest =>
      run_op project_id o ≫= fun ok : bool =>
      run_ops project_id rest ≫= fun n : nat =>
      mret (if ok then S n else n)
  end.


(** [s'] is [s] with rows appended to [edit_history] and [details] only. *)
Definition appends (s s' : store) : Prop :=
  projects s' = projects s /\ project_members s' = project_members s /\
  (exists new_edits, edit_history s' = edit_history s ++ new_edits) /\
  (exists new_details, details s' = details s ++ new_details).

(** The tables after [DELETE FROM projects] when nothing references the
    project. *)
Definition store_without_project (p : nat) (s : store) : store :=
  mkStore (filter (fun x => p_project_id x <> p) (projects s))
          (project_members s) (edit_history s) (details s).

(** ** Concrete scenarios *)

(** Users 1 and 2 registered, no project yet. *)
Definition empty_world : world :=
  mkWorld (mkStore [] [] [] []) 1 1 0 [] 0
          [mkUser 1 "a@example.com"; mkUser 2 "b@example.com"] 0.

Definition with_faults (w : world) (l : list nat) : world :=
  mkWorld (db w) (next_edit_id w) (next_project_id w) (clock w) l (stmt_no w)
          (users w) (client_clock w).

Definition canvas_X : gmap string pyval := <["problem" := PyStr "X"]> ∅.
Definition canvas_Y : gmap string pyval := <["problem" := PyStr "Y"]> ∅.

(** Project 1 created by user 1 (its only member): edit 1, version 1. *)
Definition demo_world : world := snd (create_project 1 "P" canvas_X None empty_world).

(** [demo_world] with edit 2 (version 2 of project 1) inserted by
    [insert_edit_history] and no details row for it yet. *)
Definition demo_world_bare_edit : world :=
  snd (insert_edit_history (Some 1) 2 1 manual None demo_world).

(** Two members' requests to update project 1. *)
Definition writer_A : writer := mkWriter 1 1 canvas_Y manual None PStart.
Definition writer_B : writer := mkWriter 1 1 canvas_X research None PStart.


(** Both transactions read the maximum before either inserts. *)
Definition sched_same_read : list bool := [true; false; true; false; true; false].
(** The first writer begins first but commits last. *)
Definition sched_late_commit : list bool := [true; false; false; false; true; true].


(** ** Running the monad: inversion lemmas *)

Lemma bind_inv {A B} (m : M A) (k : A -> M B) w r w' :
  (m ≫= k) w = (r, w') ->
  (exists e, m w = (inl e, w') /\ r = inl e) \/
  (exists a w1, m w = (inr a, w1) /\ k a w1 = (r, w')).
Proof.
  unfold mbind, M_bind. destruct (m w) as [[e|a] w1].
  - intros [= <- <-]. left. eauto.
  - intros H. right. eauto.
Qed.

Lemma ret_inv {A} (a : A) w r w' : (mret a : M A) w = (r, w') -> r = inr a /\ w' = w.
Proof. unfold mret, M_ret. intros [= <- <-]. auto. Qed.

Lemma raise_inv {A} e w (r : exn + A) w' : raise e w = (r, w') -> r = inl e /\ w' = w.
Proof. unfold raise. intros [= <- <-]. auto. Qed.

Ltac inv_bind H :=
  apply bind_inv in H;
  destruct H as [(?e & ?Hm & ?Hr) | (?a & ?w & ?Hm & H)];
  [try discriminate|].

Lemma stmt_inv w r w' :
  stmt w = (r, w') -> db w' = db w /\ (r = inr tt \/ r = inl DBError).
Proof. unfold stmt. destruct (existsb _ _); intros [= <- <-]; auto. Qed.

Lemma get_db_inv w r w' : get_db w = (r, w') -> r = inr (db w) /\ w' = w.
Proof. unfold get_db. intros [= <- <-]. auto. Qed.

Lemma put_db_inv s w r w' : put_db s w = (r, w') -> r = inr tt /\ db w' = s.
Proof. unfold put_db. intros [= <- <-]. auto. Qed.

Lemma tick_inv w r w' : tick w = (r, w') -> r = inr (clock w) /\ db w' = db w.
Proof. unfold tick. intros [= <- <-]. auto. Qed.

Lemma fresh_edit_id_inv w r w' :
  fresh_edit_id w = (r, w') -> r = inr (next_edit_id w) /\ db w' = db w.
Proof. unfold fresh_edit_id. intros [= <- <-]. auto. Qed.

(** Reads: the tables are left as they are. *)
Ltac run_prims :=
  unfold stmt, get_db, get_users, put_db, tick, fresh_edit_id, fresh_project_id,
    datetime_now, raise, mbind, M_bind, mret, M_ret;
  cbn; repeat case_match; intros [= <- <-]; cbn.

Lemma sql_member_exists_inv p u w r w' :
  sql_member_exists p u w = (r, w') ->
  db w' = db w /\ (r = inr (is_member p u (db w)) \/ r = inl DBError).
Proof. unfold sql_member_exists. run_prims; naive_solver. Qed.

Lemma sql_max_version_inv p w r w' :
  sql_max_version p w = (r, w') ->
  db w' = db w /\ (r = inr (max_version p (db w)) \/ r = inl DBError).
Proof. unfold sql_max_version. run_prims; naive_solver. Qed.

Lemma sql_insert_edit_inv p v u cat cm ts w r w' :
  sql_insert_edit p v u cat cm ts w = (r, w') ->
  (r = inl DBError /\ db w' = db w) \/
  (exists eid, r = inr eid /\ db w' = add_edit (db w) (mkEdit eid p v u cat cm ts)).
Proof. unfold sql_insert_edit. run_prims; naive_solver. Qed.

Lemma mapM_text_column_inv (l : list pyval) w r w' :
  mapM text_column l w = (r, w') ->
  w' = w /\ (r = inr (map column_of l) \/ r = inl DataError).
Proof.
  revert r w'. induction l as [|v l IH]; intros r w' H; cbn in H;
    unfold mbind, M_bind, mret, M_ret, raise in H.
  - injection H as <- <-. auto.
  - destruct v; cbn in H; try (injection H as <- <-; naive_solver);
      pose proof (IH _ _ (surjective_pairing (mapM text_column l w))) as [Hw Hr];
      destruct (mapM text_column l w) as [[e|xs] w1]; cbn in Hw, Hr; subst w1;
      injection H as <- <-; naive_solver.
Qed.

Lemma sql_insert_details_inv eid payload w r w' :
  sql_insert_details eid payload w = (r, w') ->
  (exists e, r = inl e /\ db w' = db w) \/
  (r = inr tt /\ db w' = add_detail (db w) (mkDetail eid payload)).
Proof. unfold sql_insert_details. run_prims; naive_solver. Qed.

Lemma sql_insert_details_cols_inv eid vals w r w' :
  sql_insert_details_cols eid vals w = (r, w') ->
  (exists e, r = inl e /\ db w' = db w) \/
  (r = inr tt /\ db w' = add_detail (db w) (mkDetail eid (Columns (map column_of vals)))).
Proof.
  unfold sql_insert_details_cols. intros H. inv_bind H.
  - apply mapM_text_column_inv in Hm as [-> _]. subst. eauto.
  - apply mapM_text_column_inv in Hm as [-> [[= <-]|?]]; [|discriminate].
    apply sql_insert_details_inv in H. done.
Qed.

Lemma transaction_inv {A} (body : nat -> M A) w r w' :
  transaction body w = (r, w') ->
  (exists e, r = inl e /\ db w' = db w) \/
  (exists ts w1 a w2, db w1 = db w /\ body ts w1 = (inr a, w2) /\
     r = inr a /\ db w' = db w2).
Proof.
  unfold transaction.
  destruct ((ts ← tx_begin; a ← body ts; tx_commit;; mret a) w) as [[e|a] w3] eqn:E;
    intros Hr; injection Hr as <- <-.
  - left. exists e. done.
  - right. inv_bind E.
    unfold tx_begin in Hm. inv_bind Hm.
    apply stmt_inv in Hm0 as [Hd _]. apply tick_inv in Hm as [Ht Hd'].
    injection Ht as ->.
    inv_bind E. rename a1 into b, w2 into wb, Hm into Hb.
    inv_bind E. unfold tx_commit in Hm. apply stmt_inv in Hm as [Hd'' _].
    apply ret_inv in E as [Ha ->]. injection Ha as ->.
    eexists (clock w1), w0, _, wb. rewrite Hd', Hd. eauto.
Qed.

Lemma catch_all_inv {A} (m : M A) h w r w' :
  catch_all m h w = (r, w') ->
  exists r0, m w = (r0, w') /\
    r = match r0 with inl e => inr (h e) | inr a => inr a end.
Proof.
  unfold catch_all. destruct (m w) as [[e|a] w1]; intros [= <- <-]; eauto.
Qed.

(** ** What [update_project] does to the tables *)

Lemma up_write_inv p u cd cat cm ts mv w r w' :
  up_write p u cd cat cm ts mv w = (r, w') ->
  (exists e, r = inl e) \/
  (exists eid, r = inr (eid, mv + 1) /\
     db w' = add_detail (add_edit (db w) (mkEdit eid p (mv + 1) u cat cm ts))
               (mkDetail eid (Columns (new_columns cd)))).
Proof.
  unfold up_write. intros H. inv_bind H; [eauto|].
  apply sql_insert_edit_inv in Hm as [[? _]|(eid & Ha & Hd)]; [discriminate|].
  injection Ha as ->. inv_bind H; [eauto|].
  apply sql_insert_details_cols_inv in Hm as [(? & ? & _)|[_ Hd']]; [discriminate|].
  apply ret_inv in H as [-> ->]. right. exists eid. rewrite Hd', Hd. done.
Qed.

Lemma update_project_inv p u cd cat cm w r w' :
  update_project p u cd cat cm w = (r, w') ->
  (exists m, r = inr (CFailure m) /\ db w' = db w /\
     (is_member p u (db w) = false ->
      m = MsgNoAccess \/ m = MsgUpdateFailed DBError)) \/
  (exists eid ts, r = inr (CSuccess eid (max_version p (db w) + 1)) /\
     is_member p u (db w) = true /\
     db w' = add_detail (add_edit (db w) (mkEdit eid p (max_version p (db w) + 1) u cat cm ts))
               (mkDetail eid (Columns (new_columns cd)))).
Proof.
  unfold update_project. intros H. apply catch_all_inv in H as (r0 & H & ->).
  inv_bind H.
  { unfold get_async_connection in Hm. apply stmt_inv in Hm as [Hd [?|He]]; subst; [discriminate|].
    left. injection He as ->. eauto. }
  unfold get_async_connection in Hm. apply stmt_inv in Hm as [Hd _].
  inv_bind H.
  { apply sql_member_exists_inv in Hm as [Hd' [?|He]]; subst; [discriminate|].
    left. injection He as ->. eexists. split; [done|]. split; [congruence|]. auto. }
  apply sql_member_exists_inv in Hm as [Hd' [Ha|?]]; [|discriminate].
  injection Ha as ->.
  destruct (is_member p u (db w0)) eqn:Hmem; rewrite Hd in Hmem, Hd'; cbn in H.
  2:{ apply ret_inv in H as [-> ->]. left. eexists. split; [done|]. split; [congruence|]. auto. }
  inv_bind H.
  { apply transaction_inv in Hm as [(e' & He & Hd'')|(? & ? & ? & ? & _ & _ & He & _)];
      subst; [|discriminate].
    left. eexists. split; [done|]. split; [congruence|]. congruence. }
  apply transaction_inv in Hm as [(? & ? & _)|(ts & wa & b & wb & Hd1 & Hb & Ha & Hd2)];
    [discriminate|].
  injection Ha as Ha. subst.
  match type of H with context [let '(_, _) := ?x in _] => destruct x as [eid v] end. apply ret_inv in H as [-> ->].
  inv_bind Hb. unfold up_read in Hm. apply sql_max_version_inv in Hm as [Hd3 [Hv|?]];
    [|discriminate].
  injection Hv as ->. apply up_write_inv in Hb as [[? ?]|(eid' & Hr & Hd4)]; [discriminate|].
  injection Hr as -> ->. right. exists eid', ts.
  rewrite Hd2, Hd4, Hd3, Hd1, Hd'. done.
Qed.

(** ** What [create_project] does to the tables *)

Lemma fresh_project_id_inv w r w' :
  fresh_project_id w = (r, w') -> r = inr (next_project_id w) /\ db w' = db w.
Proof. unfold fresh_project_id. intros [= <- <-]. auto. Qed.

(** A statement leaves the [users] table and both clocks alone. *)
Lemma stmt_env w r w' :
  stmt w = (r, w') ->
  users w' = users w /\ clock w' = clock w /\ client_clock w' = client_clock w.
Proof. unfold stmt. destruct (existsb _ _); intros [= <- <-]; auto. Qed.

Lemma datetime_now_inv w r w' :
  datetime_now w = (r, w') -> r = inr (client_clock w) /\ db w' = db w /\ users w' = users w.
Proof. unfold datetime_now. intros [= <- <-]. auto. Qed.

Lemma sql_insert_project_inv u n c w r w' :
  sql_insert_project u n c w = (r, w') ->
  (exists e, r = inl e /\ db w' = db w) \/
  (exists pid, r = inr pid /\ user_exists u (users w) = true /\
     varchar_fits 255 n = true /\
     db w' = mkStore (projects (db w) ++ [mkProject pid u n c])
                     (project_members (db w)) (edit_history (db w)) (details (db w))).
Proof.
  unfold sql_insert_project, stmt, get_db, get_users, fresh_project_id, put_db, raise,
    mbind, M_bind, mret, M_ret.
  cbn -[user_exists varchar_fits].
  destruct (existsb _ (faults w)); [intros [= <- <-]; left; eauto|].
  cbn -[user_exists varchar_fits].
  destruct (user_exists u (users w) && varchar_fits 255 n) eqn:E; intros [= <- <-].
  - apply andb_prop in E as [? ?]. right. eexists. done.
  - left. eauto.
Qed.

Lemma sql_insert_member_inv p u role w r w' :
  sql_insert_member p u role w = (r, w') ->
  (exists e, r = inl e /\ db w' = db w) \/
  (r = inr tt /\
   db w' = mkStore (projects (db w)) (project_members (db w) ++ [mkMember p u role])
                   (edit_history (db w)) (details (db w))).
Proof. unfold sql_insert_member. run_prims; naive_solver. Qed.

(** A committed transaction: its body ran from BEGIN, whose [now()] is the
    clock at the call, on the tables, users and client clock of the call. *)
Lemma transaction_ok_inv {A} (body : nat -> M A) w a w' :
  transaction body w = (inr a, w') ->
  exists w1 w2, db w1 = db w /\ users w1 = users w /\ client_clock w1 = client_clock w /\
    body (clock w) w1 = (inr a, w2) /\ db w' = db w2.
Proof.
  unfold transaction.
  destruct ((ts ← tx_begin; a ← body ts; tx_commit;; mret a) w) as [[e|b] w3] eqn:E;
    intros Hr; injection Hr as Hr Hw; [discriminate|]. subst b w3.
  inv_bind E. unfold tx_begin in Hm. inv_bind Hm.
  pose proof (stmt_env _ _ _ Hm0) as (Hu & Hc & Hcc).
  apply stmt_inv in Hm0 as [Hd _].
  unfold tick in Hm. injection Hm as <- <-.
  inv_bind E. rename Hm into Hb.
  inv_bind E. unfold tx_commit in Hm. apply stmt_inv in Hm as [Hd'' _].
  apply ret_inv in E as [Ha ->]. injection Ha as ->.
  rewrite Hc in Hb.
  refine (ex_intro _ _ (ex_intro _ w0 (conj _ (conj _ (conj _ (conj Hb Hd''))))));
    cbn; congruence.
Qed.

(** [create_project] is all or nothing.  On failure the tables are unchanged.
    On success the creator is a registered user, the name fits
    [VARCHAR(255)], and the code has appended the project row (created at the
    application's [datetime.now()]), version 1 (at the server's [now()]),
    the eleven-column details row and the creator's admin membership. *)
Lemma create_project_inv u name cd cm w r w' :
  create_project u name cd cm w = (r, w') ->
  (exists e, r = inr (CreateFailure (MsgCreateFailed e)) /\ db w' = db w) \/
  (exists pid eid, r = inr (CreateSuccess pid eid) /\
     user_exists u (users w) = true /\ varchar_fits 255 name = true /\
     db w' = mkStore (projects (db w) ++ [mkProject pid u name (client_clock w)])
                     (project_members (db w) ++ [mkMember pid u admin])
                     (edit_history (db w) ++
                        [mkEdit eid pid 1 u manual
                           (Some (match cm with
                                  | Some c => if String.eqb c "" then "初期作成" else c
                                  | None => "初期作成" end)) (clock w)])
                     (details (db w) ++ [mkDetail eid (Columns (new_columns cd))])).
Proof.
  unfold create_project. intros H. apply catch_all_inv in H as (r0 & H & ->).
  inv_bind H.
  { unfold get_async_connection in Hm. apply stmt_inv in Hm as [Hd _]. subst. left. eauto. }
  unfold get_async_connection in Hm.
  pose proof (stmt_env _ _ _ Hm) as (Hu0 & Hc0 & Hcc0).
  apply stmt_inv in Hm as [Hd _].
  inv_bind H.
  { apply transaction_inv in Hm as [(e' & He & Hd')|(? & ? & ? & ? & _ & _ & He & _)];
      [|discriminate].
    injection He as <-. subst. left. eexists. split; [done|]. congruence. }
  match type of Hm with _ = (inr ?x, _) => destruct x as [pid eid] end.
  apply transaction_ok_inv in Hm as (wt1 & wt2 & Hd1 & Hu1 & Hcc1 & Hb & Hd2).
  apply ret_inv in H as [-> ->].
  inv_bind Hb. apply datetime_now_inv in Hm as (Hn & Hs0 & Hus). injection Hn as ->.
  inv_bind Hb.
  apply sql_insert_project_inv in Hm as [(? & ? & _)|(pid' & Hp & Hue & Hv & Hs1)];
    [discriminate|].
  injection Hp as <-.
  inv_bind Hb.
  apply sql_insert_edit_inv in Hm as [[? _]|(eid' & Ha & Hs2)]; [discriminate|].
  injection Ha as <-.
  inv_bind Hb.
  apply sql_insert_details_cols_inv in Hm as [(? & ? & _)|[_ Hs3]]; [discriminate|].
  inv_bind Hb.
  apply sql_insert_member_inv in Hm as [(? & ? & _)|[_ Hs4]]; [discriminate|].
  apply ret_inv in Hb as [Hr ->]. injection Hr as -> ->.
  right. do 2 eexists.
  rewrite Hus, Hu1, Hu0 in Hue. rewrite Hcc1, Hcc0, Hc0 in *.
  split; [reflexivity|]. split; [exact Hue|]. split; [exact Hv|].
  rewrite Hd2, Hs4, Hs3, Hs2, Hs1, Hs0, Hd1, Hd. done.
Qed.

(** ** What [rollback_to_version] does to the tables *)

Lemma sql_fetch_target_inv eid p w r w' :
  sql_fetch_target eid p w = (r, w') ->
  db w' = db w /\
  (forall cols tv, r = inr (Some (cols, tv)) ->
     lookup_details eid (db w) = Some (Columns cols) /\
     exists row, lookup_edit eid (db w) = Some row /\ e_project_id row = p /\ version row = tv).
Proof.
  unfold sql_fetch_target. intros H. inv_bind H.
  - apply stmt_inv in Hm as [Hd _]. subst. split; [done|]. intros ?? [=].
  - apply stmt_inv in Hm as [Hd _]. inv_bind H. apply get_db_inv in Hm as [Hs ->].
    injection Hs as ->. unfold raise, mret, M_ret in H.
    repeat case_match; injection H as <- <-; (split; [done|]); intros ?? Hr;
      try discriminate; injection Hr as <- <-.
    rewrite Hd in *. apply Nat.eqb_eq in H3. eauto.
Qed.

Lemma to_pyval_column_of (cols : list (option string)) :
  map column_of (map to_pyval cols) = cols.
Proof. induction cols as [|[c|] cols IH]; cbn; rewrite ?IH; done. Qed.

Lemma rollback_to_version_inv p eid u cm w r w' :
  rollback_to_version p eid u cm w = (r, w') ->
  (exists m, r = inr (RFailure m) /\ db w' = db w /\
     (is_member p u (db w) = false ->
      m = MsgNoAccess \/ m = MsgRollbackFailed DBError)) \/
  (exists eid' ts cols row, r = inr (RSuccess eid' (max_version p (db w) + 1) (version row)) /\
     is_member p u (db w) = true /\
     lookup_details eid (db w) = Some (Columns cols) /\
     lookup_edit eid (db w) = Some row /\ e_project_id row = p /\
     db w' = add_detail
               (add_edit (db w)
                  (mkEdit eid' p (max_version p (db w) + 1) u rollback
                     (Some (py_or_comment cm (rollback_default_comment (version row)))) ts))
               (mkDetail eid' (Columns cols))).
Proof.
  unfold rollback_to_version. intros H. apply catch_all_inv in H as (r0 & H & ->).
  inv_bind H.
  { unfold get_async_connection in Hm. apply stmt_inv in Hm as [Hd [?|He]]; subst; [discriminate|].
    left. injection He as ->. eauto. }
  unfold get_async_connection in Hm. apply stmt_inv in Hm as [Hd _].
  inv_bind H.
  { apply sql_member_exists_inv in Hm as [Hd' [?|He]]; subst; [discriminate|].
    left. injection He as ->. eexists. split; [done|]. split; [congruence|]. auto. }
  apply sql_member_exists_inv in Hm as [Hd' [Ha|?]]; [|discriminate].
  injection Ha as ->.
  destruct (is_member p u (db w0)) eqn:Hmem; rewrite Hd in Hmem, Hd'; cbn in H.
  all: try (apply ret_inv in H as [-> ->]; left; eexists; split; [done|];
            split; [congruence|]; auto).
  all: inv_bind H;
    [ apply sql_fetch_target_inv in Hm as [Hd'' _]; subst; left; eexists; split; [done|];
      split; [congruence|]; intros; congruence
    | ].
  all: apply sql_fetch_target_inv in Hm as [Hd'' Htarget]; rewrite Hd' in Hd'', Htarget.
  all: match type of H with
       | context [match ?x with None => _ | Some _ => _ end] =>
           destruct x as [[cols tv]|] eqn:Ht
       end.
  all: try (apply ret_inv in H as [-> ->]; left; eexists; split; [done|];
            split; [congruence|]; intros; congruence).
  all: destruct (Htarget cols tv eq_refl) as (Hdet & row & Hrow & Hp & Hv).
  all: inv_bind H;
    [ apply transaction_inv in Hm as [(e' & He & Hd3)|(? & ? & ? & ? & _ & _ & He & _)];
        subst; [|discriminate];
      left; eexists; split; [done|]; split; [congruence|]; congruence
    | ].
  all: apply transaction_inv in Hm as [(? & ? & _)|(ts & wa & b & wb & Hd1 & Hb & Ha & Hd2)];
    [discriminate|].
  all: injection Ha as Ha; subst.
  all: match type of H with context [let '(_, _) := ?x in _] => destruct x as [eid' v] end.
  all: apply ret_inv in H as [-> ->].
  all: inv_bind Hb; apply sql_max_version_inv in Hm as [Hd3 [Hv'|?]]; [|discriminate].
  all: injection Hv' as ->; cbn in Hb.
  all: inv_bind Hb; apply sql_insert_edit_inv in Hm as [[? _]|(e2 & Hr & Hd4)]; [discriminate|].
  all: injection Hr as ->; inv_bind Hb.
  all: apply sql_insert_details_cols_inv in Hm as [(? & ? & _)|[_ Hd5]]; [discriminate|].
  all: apply ret_inv in Hb as [Hr ->]; injection Hr as -> ->.
  all: right; exists e2, ts, cols, row.
  all: rewrite to_pyval_column_of in Hd5.
  all: rewrite Hd2, Hd5, Hd4, Hd3, Hd1, Hd''; repeat split; done.
Qed.

(** ** [compare_canvas_versions] *)

(** The second query's text uses [$2] alone: the server cannot type [$1] and
    refuses the statement (were it prepared, it would expect two arguments and
    receive one). *)
Lemma sql_fetch_details_cols_second_raises x w :
  exists e w', sql_fetch_details_cols 2 [x] w = (inl e, w').
Proof.
  unfold sql_fetch_details_cols, raise, mbind, M_bind. cbn.
  destruct (stmt w) as [[e|[]] w1]; eauto.
Qed.

Lemma compare_canvas_versions_raises_inside (a b : nat) w :
  exists e w',
    (get_async_connection;;
     version1 ← sql_fetch_details_cols 1 [a];
     version2 ← sql_fetch_details_cols 2 [b];
     match version1, version2 with
     | Some v1, Some v2 => mret (CmpSuccess v1 v2 (differences v1 v2))
     | _, _ => mret (CmpFailure MsgCompareNotFound)
     end) w = (inl e, w').
Proof.
  unfold mbind at 1, M_bind at 1.
  destruct (get_async_connection w) as [[e|[]] w1]; [eauto|].
  unfold mbind at 1, M_bind at 1.
  destruct (sql_fetch_details_cols 1 [a] w1) as [[e|v1] w2]; [eauto|].
  unfold mbind at 1, M_bind at 1.
  destruct (sql_fetch_details_cols_second_raises b w2) as (e & w3 & ->). eauto.
Qed.

(** Whatever the inputs, the comparison reports a failure. *)
Lemma compare_canvas_versions_fails p a b w :
  exists e, fst (compare_canvas_versions p a b w) = inr (CmpFailure (MsgCompareFailed e)).
Proof.
  unfold compare_canvas_versions, catch_all.
  destruct (compare_canvas_versions_raises_inside a b w) as (e & w' & ->). eauto.
Qed.

(** The loop over the fields, on its own, treats equal rows as unchanged and is
    symmetric. *)
Lemma differences_self v :
  Forall (fun d => df_changed d = false /\ df_version1 d = df_version2 d) (differences v v).
Proof.
  unfold differences. apply Forall_lookup. intros i d Hd.
  rewrite list_lookup_imap in Hd. destruct (fields !! i); [|discriminate].
  injection Hd as <-. cbn. rewrite String.eqb_refl. done.
Qed.

Lemma differences_swap v1 v2 :
  differences v2 v1 =
  (fun d => mkDiff (df_field d) (df_version2 d) (df_version1 d) (df_changed d))
    <$> differences v1 v2.
Proof.
  unfold differences. rewrite fmap_imap. apply imap_ext. intros i f _. cbn.
  rewrite String.eqb_sym. done.
Qed.

(** ** Latest-version lookups *)

Lemma argmax_by_foldl key (l : list edit_row) acc r :
  foldl (fun acc r =>
           match acc with
           | None => Some r
           | Some b => if Nat.ltb (key b) (key r) then Some r else Some b
           end) acc l = Some r ->
  (r ∈ l \/ acc = Some r) /\ Forall (fun x => key x <= key r) l /\
  (forall b, acc = Some b -> key b <= key r).
Proof.
  revert acc. induction l as [|x l IH]; intros acc H; cbn [foldl] in H.
  - subst. split; [auto|]. split; [constructor|]. intros b [= ->]. lia.
  - destruct acc as [b|];
      [destruct (Nat.ltb (key b) (key x)) eqn:E;
         [apply Nat.ltb_lt in E|apply Nat.ltb_ge in E]|];
      apply IH in H as (Hin & Hall & Hacc); specialize (Hacc _ eq_refl);
      rewrite elem_of_cons; (split; [|split]);
      try (constructor; [lia|done]);
      try (intros ? [= <-]; lia);
      naive_solver.
Qed.

Lemma argmax_by_Some key (l : list edit_row) r :
  argmax_by key l = Some r -> r ∈ l /\ Forall (fun x => key x <= key r) l.
Proof.
  unfold argmax_by. intros H. apply argmax_by_foldl in H as ([?|?] & ? & _); done.
Qed.

Lemma argmax_by_nonempty key (l : list edit_row) :
  l <> [] -> exists r, argmax_by key l = Some r.
Proof.
  unfold argmax_by. destruct l as [|x l]; [done|]. intros _. cbn [foldl].
  generalize x. clear x.
  induction l as [|y l IH]; intros b; cbn [foldl]; [eauto|].
  destruct (Nat.ltb (key b) (key y)); apply IH.
Qed.

Lemma foldr_max_versions (l : list edit_row) r :
  r ∈ l -> Forall (fun x => version x <= version r) l ->
  foldr Nat.max 0 (map version l) = version r.
Proof.
  intros Hin Hall. apply Nat.le_antisymm.
  - clear Hin. induction Hall; cbn; lia.
  - induction l as [|x l IH]; [inversion Hin|]. cbn.
    apply elem_of_cons in Hin as [->|Hin]; [lia|].
    apply Forall_cons in Hall as [_ Hall]. specialize (IH Hin Hall). lia.
Qed.

Lemma sql_latest_by_version_inv p w r w' :
  sql_latest_by_version p w = (r, w') ->
  db w' = db w /\
  (forall row name, r = inr (Some (row, name)) ->
     argmax_by version (rows_of p (edit_history (db w))) = Some row).
Proof.
  unfold sql_latest_by_version. intros H. inv_bind H.
  - apply stmt_inv in Hm as [Hd _]. subst. split; [done|]. intros ?? [=].
  - apply stmt_inv in Hm as [Hd _]. inv_bind H. apply get_db_inv in Hm as [Hs ->].
    injection Hs as ->. rewrite Hd in H. unfold mret, M_ret in H.
    destruct (project_name_of p (db w)); injection H as <- <-; (split; [done|]);
      intros row name Hr; [|discriminate].
    injection Hr as Hr. destruct (argmax_by _ _); [|discriminate]. injection Hr as -> ->. done.
Qed.

Lemma sql_fetch_details_cols_one_inv x w r w' :
  sql_fetch_details_cols 1 [x] w = (r, w') ->
  db w' = db w /\
  (forall cols, r = inr (Some cols) -> lookup_details x (db w) = Some (Columns cols)) /\
  (r = inr None -> lookup_details x (db w) = None).
Proof.
  unfold sql_fetch_details_cols. intros H. inv_bind H.
  - apply stmt_inv in Hm as [Hd _]. subst. split; [done|]. split; [intros ? [=]|intros [=]].
  - apply stmt_inv in Hm as [Hd _]. cbn in H. inv_bind H. apply get_db_inv in Hm as [Hs ->].
    injection Hs as ->. rewrite Hd in H. unfold mret, M_ret, raise in H.
    repeat case_match; injection H as <- <-; (split; [done|]);
      split; intros; try discriminate; congruence.
Qed.

Lemma get_latest_version_inv p w r w' :
  get_latest_version p w = (r, w') ->
  db w' = db w /\
  (forall v, r = inr (Some v) ->
     exists row, argmax_by last_updated (rows_of p (edit_history (db w))) = Some row /\
                 version row = v).
Proof.
  unfold get_latest_version. intros H. apply catch_all_inv in H as (r0 & H & ->).
  apply transaction_inv in H as [(e & -> & Hd)|(ts & w1 & a & w2 & Hd1 & Hb & -> & Hd2)].
  - split; [done|]. intros ? [=].
  - inv_bind Hb. apply stmt_inv in Hm as [Hd _]. inv_bind Hb.
    apply get_db_inv in Hm as [Hs ->]. injection Hs as ->.
    apply ret_inv in Hb as [Ha ->]. injection Ha as Ha. subst a.
    rewrite Hd2, Hd, Hd1. split; [done|]. intros v Hv. injection Hv as Hv.
    destruct (argmax_by _ _) as [row|]; [|discriminate]. injection Hv as <-. eauto.
Qed.

Lemma get_latest_edit_id_inv p w r w' :
  get_latest_edit_id p w = (r, w') ->
  db w' = db w /\
  (forall eid, r = inr (Some eid) ->
     exists row, argmax_by last_updated (rows_of p (edit_history (db w))) = Some row /\
                 edit_id row = eid).
Proof.
  unfold get_latest_edit_id. intros H. apply catch_all_inv in H as (r0 & H & ->).
  apply transaction_inv in H as [(e & -> & Hd)|(ts & w1 & a & w2 & Hd1 & Hb & -> & Hd2)].
  - split; [done|]. intros ? [=].
  - inv_bind Hb. apply stmt_inv in Hm as [Hd _]. inv_bind Hb.
    apply get_db_inv in Hm as [Hs ->]. injection Hs as ->.
    apply ret_inv in Hb as [Ha ->]. injection Ha as Ha. subst a.
    rewrite Hd2, Hd, Hd1. split; [done|]. intros v Hv. injection Hv as Hv.
    destruct (argmax_by _ _) as [row|]; [|discriminate]. injection Hv as <-. eauto.
Qed.

Lemma get_project_latest_inv p u w r w' lv :
  get_project_latest p u w = (r, w') -> r = inr (Some lv) ->
  is_member p u (db w) = true /\
  exists row, argmax_by version (rows_of p (edit_history (db w))) = Some row /\
    lv_current_version lv = version row /\
    lv_update_category lv = update_category row /\
    lv_update_comment lv = update_comment row /\
    ((exists cols, lookup_details (edit_id row) (db w) = Some (Columns cols) /\
                   lv_canvas_data lv = zip fields cols) \/
     (lookup_details (edit_id row) (db w) = None /\ lv_canvas_data lv = [])).
Proof.
  unfold get_project_latest. intros H Hr. apply catch_all_inv in H as (r0 & H & ->).
  destruct r0 as [e|r0]; [discriminate|]. injection Hr as ->.
  inv_bind H. unfold get_async_connection in Hm. apply stmt_inv in Hm as [Hd _].
  inv_bind H. apply sql_member_exists_inv in Hm as [Hd' [Ha|?]]; [|discriminate].
  injection Ha as ->. rewrite Hd in Hd'.
  destruct (is_member p u (db w0)) eqn:Hmem; rewrite Hd in Hmem; cbn [negb] in H;
    [|apply ret_inv in H as [Hx _]; discriminate Hx].
  split; [done|].
  inv_bind H. apply sql_latest_by_version_inv in Hm as [Hd'' Hrow].
  rewrite Hd' in Hd'', Hrow.
  match type of H with
  | context [match ?x with Some _ => _ | None => _ end] => destruct x as [[row name]|]
  end; [|apply ret_inv in H as [Hx _]; discriminate Hx].
  specialize (Hrow row name eq_refl).
  inv_bind H. apply sql_fetch_details_cols_one_inv in Hm as (Hd3 & Hsome & Hnone).
  rewrite Hd'' in Hsome, Hnone.
  apply ret_inv in H as [Hx _]. injection Hx as Hx. subst lv. exists row. cbn [lv_current_version lv_update_category lv_update_comment lv_canvas_data].
  split; [done|]. split; [done|]. split; [done|]. split; [done|].
  match goal with
  | H : forall cols, inr ?x = inr (Some cols) -> _ |- _ => destruct x as [cols|]
  end; [left; eauto|right; eauto].
Qed.

(** ** [update_canvas]: the attribute lookup fails before any insert *)

Lemma update_canvas_inv request w r w' :
  update_canvas request w = (r, w') -> r = inr (HttpError 500) /\ db w' = db w.
Proof.
  unfold update_canvas. intros H. apply catch_all_inv in H as (r0 & H & ->).
  inv_bind H.
  { apply get_latest_version_inv in Hm as [Hd _]. subst. done. }
  apply get_latest_version_inv in Hm as [Hd _].
  unfold request_update_category in H. inv_bind H.
  - apply raise_inv in Hm as [Hx Hw]. injection Hx as Hx. subst. done.
  - apply raise_inv in Hm as [Hx _]. discriminate Hx.
Qed.

(** ** Sequential version numbers *)

Lemma rows_of_app p (l1 l2 : list edit_row) :
  rows_of p (l1 ++ l2) = rows_of p l1 ++ rows_of p l2.
Proof. unfold rows_of. apply filter_app. Qed.

Lemma versions_of_append p s eid v u cat cm ts d :
  versions_of p (add_detail (add_edit s (mkEdit eid p v u cat cm ts)) d) =
  versions_of p s ++ [v].
Proof.
  unfold versions_of, add_detail, add_edit. cbn [edit_history].
  rewrite rows_of_app, map_app. unfold rows_of at 2.
  rewrite filter_cons_True by done. done.
Qed.

Lemma foldr_max_seq a k :
  foldr Nat.max 0 (seq a k) = match k with 0 => 0 | S _ => a + k - 1 end.
Proof.
  revert a. induction k as [|k IH]; intros a; [done|].
  cbn [seq foldr]. rewrite IH. destruct k; lia.
Qed.

Lemma max_version_seq p s k :
  versions_of p s = seq 1 k -> max_version p s = k.
Proof. unfold max_version. intros ->. rewrite foldr_max_seq. destruct k; lia. Qed.

Lemma seq_1_snoc k : seq 1 k ++ [k + 1] = seq 1 (S k).
Proof. rewrite seq_S. f_equal. f_equal. lia. Qed.

Lemma run_op_inv p o w r w' :
  run_op p o w = (r, w') ->
  (r = inr false /\ db w' = db w) \/
  (r = inr true /\ exists eid u cat cm ts d,
     db w' = add_detail (add_edit (db w)
               (mkEdit eid p (max_version p (db w) + 1) u cat cm ts)) d).
Proof.
  destruct o as [u cd cat cm|eid u cm]; cbn; intros H; inv_bind H.
  - apply update_project_inv in Hm as [(m & Hx & _)|(eid & ts & Hx & _)]; discriminate.
  - apply update_project_inv in Hm as [(m & Hx & Hd & _)|(eid & ts & Hx & _ & Hd)];
      injection Hx as Hx; subst a; apply ret_inv in H as [Hr Hw]; subst r w'.
    + left. done.
    + right. split; [done|]. do 6 eexists. exact Hd.
  - apply rollback_to_version_inv in Hm as [(m & Hx & _)|(eid' & ts & cols & row & Hx & _)];
      discriminate.
  - apply rollback_to_version_inv in Hm
      as [(m & Hx & Hd & _)|(eid' & ts & cols & row & Hx & _ & _ & _ & _ & Hd)];
      injection Hx as Hx; subst a; apply ret_inv in H as [Hr Hw]; subst r w'.
    + left. done.
    + right. split; [done|]. do 6 eexists. exact Hd.
Qed.

Lemma run_ops_cons p o rest w :
  run_ops p (o :: rest) w =
  match run_op p o w with
  | (inl e, w1) => (inl e, w1)
  | (inr ok, w1) =>
      match run_ops p rest w1 with
      | (inl e, w2) => (inl e, w2)
      | (inr n, w2) => (inr (if ok then S n else n), w2)
      end
  end.
Proof.
  cbn [run_ops]. unfold mbind, M_bind, mret, M_ret.
  destruct (run_op p o w) as [[e|ok] w1]; [done|].
  destruct (run_ops p rest w1) as [[e|n] w2]; done.
Qed.


Lemma appends_refl s : appends s s.
Proof. repeat split; exists []; rewrite app_nil_r; done. Qed.

Lemma appends_eq s s' : s' = s -> appends s s'.
Proof. intros ->. apply appends_refl. Qed.

Lemma appends_new_version s e d : appends s (add_detail (add_edit s e) d).
Proof. repeat split; eexists; reflexivity. Qed.

Lemma catch_all_total {A} (m : M A) h w : exists a, fst (catch_all m h w) = inr a.
Proof. unfold catch_all. destruct (m w) as [[e|a] w']; eauto. Qed.

Lemma lookup_map {A B} (f : A -> B) (l : list A) i : map f l !! i = f <$> l !! i.
Proof. revert i. induction l as [|x l IH]; intros [|i]; cbn; auto. Qed.

Lemma canvas_get_fields_insert cd k v :
  k ∉ fields -> map (canvas_get (<[k := v]> cd)) fields = map (canvas_get cd) fields.
Proof.
  intros Hk. apply map_ext_in. intros f Hf. unfold canvas_get.
  rewrite lookup_insert_ne; [done|]. intros ->. apply Hk. apply list_elem_of_In. exact Hf.
Qed.

(** ** Failure values of the helpers *)

Lemma sql_insert_edit_checks p v u cat cm ts w eid w' :
  sql_insert_edit p v u cat cm ts w = (inr eid, w') ->
  project_exists p (db w) = true /\ user_exists u (users w) = true /\ comment_fits cm = true.
Proof.
  unfold sql_insert_edit, stmt, get_db, get_users, fresh_edit_id, put_db, raise,
    mbind, M_bind, mret, M_ret.
  cbn -[project_exists user_exists comment_fits].
  destruct (existsb _ (faults w)); [discriminate|].
  cbn -[project_exists user_exists comment_fits].
  destruct (project_exists p (db w)), (user_exists u (users w)), (comment_fits cm);
    cbn; done.
Qed.

(** [insert_edit_history] returns [0], and writes nothing, for a project or a
    user the server does not know. *)
Lemma insert_edit_history_unknown pid v u cat cm w r w' :
  insert_edit_history (Some pid) v u cat cm w = (r, w') ->
  project_exists pid (db w) = false \/ user_exists u (users w) = false ->
  r = inr 0 /\ db w' = db w.
Proof.
  unfold insert_edit_history. intros H Hno. apply catch_all_inv in H as ([e|a] & H & ->).
  - apply transaction_inv in H as [(e' & _ & Hd)|(? & ? & ? & ? & _ & _ & ? & _)];
      [done|discriminate].
  - exfalso. apply transaction_ok_inv in H as (w1 & w2 & Hd1 & Hu1 & _ & Hb & _).
    apply sql_insert_edit_checks in Hb as (Hp & Hu & _).
    rewrite Hd1 in Hp. rewrite Hu1 in Hu. destruct Hno; congruence.
Qed.

(** * Claims *)

(** C1 (counterexample): with no uniqueness constraint and no retry, two
    members updating project 1 at the same time both succeed and both store
    version 2: after three successful version-creating calls (the creation
    and the two updates) the stored versions are [1; 2; 2]. *)
Lemma C1_concurrent_updates_duplicate_version :
  let r := run_schedule sched_same_read writer_A writer_B demo_world in
  (match fst r with
   | inr (a, b) => wr_phase a = PDone (CSuccess 2 2) /\ wr_phase b = PDone (CSuccess 3 2)
   | inl _ => False
   end) /\
  versions_of 1 (db (snd r)) = [1; 2; 2] /\ ~ NoDup (versions_of 1 (db (snd r))).
Proof.
  vm_compute. split; [split; reflexivity|]. split; [reflexivity|].
  intros Hn. apply NoDup_cons in Hn as [_ Hn]. apply NoDup_cons in Hn as [Hn _].
  apply Hn. apply elem_of_cons. left. reflexivity.
Qed.

(** C1 (amended): run one after the other, [update_project] and
    [rollback_to_version] calls each store version [max + 1] (1 when the
    project has none) on success and store nothing on failure; so from the
    versions [1..k], after calls of which [n] succeed the versions are exactly
    [1..k+n], in order, without gaps or duplicates. *)
Theorem C1_sequential_versions_gap_free p os w k :
  versions_of p (db w) = seq 1 k ->
  exists n, fst (run_ops p os w) = inr n /\
            versions_of p (db (snd (run_ops p os w))) = seq 1 (k + n).
Proof.
  revert w k. induction os as [|o rest IH]; intros w k Hv.
  - exists 0. cbn. rewrite Nat.add_0_r. done.
  - rewrite run_ops_cons.
    destruct (run_op p o w) as [r1 w1] eqn:E1.
    apply run_op_inv in E1 as [[-> Hd]|[-> (eid & u & cat & cm & ts & d & Hd)]].
    + destruct (IH w1 k) as (n & Hn & Hv'); [rewrite Hd; exact Hv|].
      destruct (run_ops p rest w1) as [r2 w2]. cbn in Hn, Hv'. subst r2.
      exists n. done.
    + assert (Hv1 : versions_of p (db w1) = seq 1 (S k)).
      { rewrite Hd, versions_of_append, (max_version_seq _ _ _ Hv), Hv.
        apply seq_1_snoc. }
      destruct (IH w1 (S k) Hv1) as (n & Hn & Hv').
      destruct (run_ops p rest w1) as [r2 w2]. cbn in Hn, Hv'. subst r2.
      exists (S n). cbn [fst snd]. split; [done|]. rewrite Hv'. replace (k + S n) with (S k + n) by lia. done.
Qed.

Lemma C1_sequential_versions_gap_free_witness :
  versions_of 1 (db demo_world) = seq 1 1 /\
  exists n, fst (run_ops 1 [OpUpdate 1 canvas_Y manual None; OpRollback 1 1 None;
                            OpUpdate 2 canvas_Y manual None] demo_world) = inr n /\
            versions_of 1 (db (snd (run_ops 1 [OpUpdate 1 canvas_Y manual None;
                                   OpRollback 1 1 None; OpUpdate 2 canvas_Y manual None]
                                   demo_world))) = seq 1 (1 + n).
Proof.
  split; [vm_compute; reflexivity|].
  apply (C1_sequential_versions_gap_free 1 _ demo_world 1). vm_compute. reflexivity.
Defined.

(** C2: [register_project] runs its three inserts in three transactions.  When
    the details INSERT (statement 7) fails, the project and its edit_history
    row (version 1) stay committed without a details row, and the handler
    returns [result = False]. *)
Theorem C2_register_project_leaves_orphan_edit :
  let r := register_project 1 "Q" canvas_X (with_faults empty_world [7]) in
  fst r = inr (Some 1, 1, false) /\
  versions_of 1 (db (snd r)) = [1] /\
  details (db (snd r)) = [] /\
  map edit_id (orphan_edits (db (snd r))) = [1].
Proof. vm_compute. repeat split. Qed.




(** C4: [update_project], [rollback_to_version] and [update_canvas] never
    update or delete a row: whatever they return, they leave [projects] and
    [project_members] as they were and only append rows to [edit_history] and
    [details], so every stored version keeps its rows. *)
Theorem C4_history_is_append_only :
  (forall p u cd cat cm w r w',
     update_project p u cd cat cm w = (r, w') -> appends (db w) (db w')) /\
  (forall p eid u cm w r w',
     rollback_to_version p eid u cm w = (r, w') -> appends (db w) (db w')) /\
  (forall request w r w',
     update_canvas request w = (r, w') -> appends (db w) (db w')).
Proof.
  split; [|split].
  - intros p u cd cat cm w r w' H.
    apply update_project_inv in H as [(m & _ & Hd & _)|(eid & ts & _ & _ & Hd)];
      rewrite Hd; [apply appends_refl|apply appends_new_version].
  - intros p eid u cm w r w' H.
    apply rollback_to_version_inv in H
      as [(m & _ & Hd & _)|(eid' & ts & cols & row & _ & _ & _ & _ & _ & Hd)];
      rewrite Hd; [apply appends_refl|apply appends_new_version].
  - intros request w r w' H. apply update_canvas_inv in H as [_ Hd].
    apply appends_eq. exact Hd.
Qed.

(** C5 (counterexample): user 2 is not a member of project 1; the calls do not
    raise, they return the dictionaries [{"success": False, "message":
    "このプロジェクトへのアクセス権限がありません"}]. *)
Lemma C5_non_member_gets_failure_dict :
  fst (update_project 1 2 canvas_Y manual None demo_world) = inr (CFailure MsgNoAccess) /\
  fst (rollback_to_version 1 1 2 None demo_world) = inr (RFailure MsgNoAccess).
Proof. vm_compute. split; reflexivity. Qed.

(** C5 (amended): for a user without a [project_members] row, [update_project]
    and [rollback_to_version] return a failure dictionary (the no-access
    message, or the generic update/rollback failure when the connection or
    the membership query itself fails) and write nothing; [update_canvas]
    checks no membership, fails with HTTP 500 and writes nothing. *)
Theorem C5_non_member_writes_nothing p u cd cat cm eid rcm request w :
  is_member p u (db w) = false ->
  (exists m, fst (update_project p u cd cat cm w) = inr (CFailure m) /\
             (m = MsgNoAccess \/ m = MsgUpdateFailed DBError) /\
             db (snd (update_project p u cd cat cm w)) = db w) /\
  (exists m, fst (rollback_to_version p eid u rcm w) = inr (RFailure m) /\
             (m = MsgNoAccess \/ m = MsgRollbackFailed DBError) /\
             db (snd (rollback_to_version p eid u rcm w)) = db w) /\
  fst (update_canvas request w) = inr (HttpError 500) /\
  db (snd (update_canvas request w)) = db w.
Proof.
  intros Hm. split; [|split].
  - destruct (update_project p u cd cat cm w) as [r w'] eqn:E.
    apply update_project_inv in E as [(m & -> & Hd & Hmsg)|(eid' & ts & _ & Hm' & _)].
    + exists m. auto.
    + congruence.
  - destruct (rollback_to_version p eid u rcm w) as [r w'] eqn:E.
    apply rollback_to_version_inv in E
      as [(m & -> & Hd & Hmsg)|(eid' & ts & cols & row & _ & Hm' & _)].
    + exists m. auto.
    + congruence.
  - destruct (update_canvas request w) as [r w'] eqn:E.
    apply update_canvas_inv in E as [-> Hd]. auto.
Qed.

Lemma C5_non_member_writes_nothing_witness :
  is_member 1 2 (db demo_world) = false /\
  (exists m, fst (update_project 1 2 canvas_Y manual None demo_world) = inr (CFailure m) /\
             (m = MsgNoAccess \/ m = MsgUpdateFailed DBError) /\
             db (snd (update_project 1 2 canvas_Y manual None demo_world)) = db demo_world) /\
  (exists m, fst (rollback_to_version 1 1 2 None demo_world) = inr (RFailure m) /\
             (m = MsgNoAccess \/ m = MsgRollbackFailed DBError) /\
             db (snd (rollback_to_version 1 1 2 None demo_world)) = db demo_world) /\
  fst (update_canvas (mkUpdateRequest 1 2 "c" canvas_Y) demo_world) = inr (HttpError 500) /\
  db (snd (update_canvas (mkUpdateRequest 1 2 "c" canvas_Y) demo_world)) = db demo_world.
Proof.
  split; [vm_compute; reflexivity|].
  apply (C5_non_member_writes_nothing 1 2 canvas_Y manual None 1 None
           (mkUpdateRequest 1 2 "c" canvas_Y) demo_world).
  vm_compute. reflexivity.
Defined.

(** C6: a rollback does append version [max + 1] tagged [rollback] with the
    target's columns: after an update to version 2, rolling back to edit 1
    stores edit 3, version 3, with edit 1's details.  But comparing the target
    with the new version fails: the second details query has one placeholder
    and is sent [edit_id2] only, so asyncpg raises and the comparison returns
    its failure dictionary instead of the list of unchanged fields. *)
Theorem C6_rollback_copy_cannot_be_compared :
  let w1 := snd (update_project 1 1 canvas_Y manual None demo_world) in
  let r := rollback_to_version 1 1 1 None w1 in
  max_version 1 (db w1) = 2 /\
  fst r = inr (RSuccess 3 3 1) /\
  option_map update_category (lookup_edit 3 (db (snd r))) = Some rollback /\
  lookup_details 3 (db (snd r)) = lookup_details 1 (db (snd r)) /\
  exists e, fst (compare_canvas_versions 1 1 3 (snd r)) = inr (CmpFailure (MsgCompareFailed e)).
Proof.
  cbv zeta. split; [vm_compute; reflexivity|]. split; [vm_compute; reflexivity|].
  split; [vm_compute; reflexivity|]. split; [vm_compute; reflexivity|].
  apply compare_canvas_versions_fails.
Qed.

(** C7: [compare_canvas_versions] never returns the list of differences, not
    even for [compare(X, X)] on an edit with details: every call returns the
    failure dictionary (in the fault-free case with the server error the
    second query meets at Parse, [IndeterminateDatatypeError]: its text uses
    [$2] without [$1]). *)
Theorem C7_compare_never_reports_differences :
  lookup_details 1 (db demo_world) = Some (Columns (new_columns canvas_X)) /\
  fst (compare_canvas_versions 1 1 1 demo_world) =
    inr (CmpFailure (MsgCompareFailed DBError)) /\
  (forall p a b w, exists e,
     fst (compare_canvas_versions p a b w) = inr (CmpFailure (MsgCompareFailed e))).
Proof.
  split; [vm_compute; reflexivity|]. split; [vm_compute; reflexivity|].
  apply compare_canvas_versions_fails.
Qed.

(** C8 (counterexample): the first writer begins (timestamp 1) before the
    second (timestamp 2) but reads and commits after it, so it stores version 3
    at timestamp 1 while version 2 carries timestamp 2.  [get_project_latest]
    orders by version, but [get_latest_version] and [get_latest_edit_id] order
    by [last_updated] and return version 2 and edit 2, not the maximum version
    3 (edit 3). *)
Lemma C8_latest_by_timestamp_misses_max_version :
  let w := snd (run_schedule sched_late_commit writer_A writer_B demo_world) in
  max_version 1 (db w) = 3 /\
  option_map edit_id (argmax_by version (rows_of 1 (edit_history (db w)))) = Some 3 /\
  fst (get_latest_version 1 w) = inr (Some 2) /\
  fst (get_latest_edit_id 1 w) = inr (Some 2).
Proof. vm_compute. repeat split. Qed.

(** C8 (amended): [get_project_latest], for a member, returns the project's row
    with the maximum version, joined with that row's details columns (no
    columns when the row has no details).  [get_latest_version] and
    [get_latest_edit_id] return the version and edit id of a row with the
    greatest [last_updated] (the transaction's start time), which need not be
    the maximum version. *)
Theorem C8_latest_lookups p u w lv :
  fst (get_project_latest p u w) = inr (Some lv) ->
  (is_member p u (db w) = true /\
   exists row, row ∈ rows_of p (edit_history (db w)) /\
     version row = max_version p (db w) /\
     lv_current_version lv = version row /\
     lv_update_category lv = update_category row /\
     lv_update_comment lv = update_comment row /\
     ((exists cols, lookup_details (edit_id row) (db w) = Some (Columns cols) /\
                    lv_canvas_data lv = zip fields cols) \/
      (lookup_details (edit_id row) (db w) = None /\ lv_canvas_data lv = []))) /\
  (forall v, fst (get_latest_version p w) = inr (Some v) ->
     exists row, row ∈ rows_of p (edit_history (db w)) /\ version row = v /\
       Forall (fun x => last_updated x <= last_updated row) (rows_of p (edit_history (db w)))) /\
  (forall eid, fst (get_latest_edit_id p w) = inr (Some eid) ->
     exists row, row ∈ rows_of p (edit_history (db w)) /\ edit_id row = eid /\
       Forall (fun x => last_updated x <= last_updated row) (rows_of p (edit_history (db w)))).
Proof.
  intros Hl. split; [|split].
  - destruct (get_project_latest p u w) as [r w'] eqn:E. cbn in Hl.
    destruct (get_project_latest_inv p u w r w' lv E Hl)
      as (Hm & row & Ha & Hv & Hc & Hcm & Hd).
    split; [done|]. apply argmax_by_Some in Ha as [Hin Hall].
    exists row. split; [done|]. split; [|done].
    unfold max_version, versions_of. symmetry. apply foldr_max_versions; done.
  - intros v Hv. destruct (get_latest_version p w) as [r w'] eqn:E. cbn in Hv.
    apply get_latest_version_inv in E as [_ Hr].
    destruct (Hr v Hv) as (row & Ha & <-). apply argmax_by_Some in Ha as [Hin Hall].
    eauto.
  - intros eid Hv. destruct (get_latest_edit_id p w) as [r w'] eqn:E. cbn in Hv.
    apply get_latest_edit_id_inv in E as [_ Hr].
    destruct (Hr eid Hv) as (row & Ha & <-). apply argmax_by_Some in Ha as [Hin Hall].
    eauto.
Qed.

Lemma C8_latest_lookups_witness :
  let lv := match fst (get_project_latest 1 1 demo_world) with
            | inr (Some lv) => lv
            | _ => mkLatest 0 "" 0 0 manual None []
            end in
  fst (get_project_latest 1 1 demo_world) = inr (Some lv) /\
  ((is_member 1 1 (db demo_world) = true /\
    exists row, row ∈ rows_of 1 (edit_history (db demo_world)) /\
      version row = max_version 1 (db demo_world) /\
      lv_current_version lv = version row /\
      lv_update_category lv = update_category row /\
      lv_update_comment lv = update_comment row /\
      ((exists cols, lookup_details (edit_id row) (db demo_world) = Some (Columns cols) /\
                     lv_canvas_data lv = zip fields cols) \/
       (lookup_details (edit_id row) (db demo_world) = None /\ lv_canvas_data lv = []))) /\
   (forall v, fst (get_latest_version 1 demo_world) = inr (Some v) ->
      exists row, row ∈ rows_of 1 (edit_history (db demo_world)) /\ version row = v /\
        Forall (fun x => last_updated x <= last_updated row)
               (rows_of 1 (edit_history (db demo_world)))) /\
   (forall eid, fst (get_latest_edit_id 1 demo_world) = inr (Some eid) ->
      exists row, row ∈ rows_of 1 (edit_history (db demo_world)) /\ edit_id row = eid /\
        Forall (fun x => last_updated x <= last_updated row)
               (rows_of 1 (edit_history (db demo_world))))).
Proof.
  intros lv. split; [vm_compute; reflexivity|].
  apply (C8_latest_lookups 1 1 demo_world lv). vm_compute. reflexivity.
Defined.

(** C9 (counterexample): when the details INSERT of an update (statement 12
    here) fails, [update_project] raises nothing: the transaction is rolled
    back and the call returns [{"success": False, "message": "更新に失敗しました:
    ..."}].  The SQLAlchemy helper [insert_edit_history] likewise turns a
    NOT NULL violation into the return value 0. *)
Lemma C9_faults_become_failure_values :
  let r := update_project 1 1 canvas_Y manual None (with_faults demo_world [12]) in
  fst r = inr (CFailure (MsgUpdateFailed DBError)) /\
  edit_history (db (snd r)) = edit_history (db demo_world) /\
  fst (insert_edit_history None 1 1 manual None demo_world) = inr 0.
Proof. vm_compute. repeat split. Qed.

(** C9 (amended): the operations [create_project], [update_project],
    [rollback_to_version], [compare_canvas_versions] and [get_project_latest]
    of [ProjectCRUD], and the helpers [get_latest_version],
    [get_latest_edit_id], [insert_project], [insert_edit_history] and
    [insert_canvas_details] of [db_operations.py], never raise: each catches
    every exception and returns a value.  A failure of [update_project] is the
    no-access message or "プロジェクト更新に失敗しました: {e}", one of
    [create_project] is "プロジェクト作成に失敗しました: {e}", and both leave
    the tables as they were.  [insert_edit_history] returns the same [0] for a
    missing project id, an unknown project and an unknown user. *)
Theorem C9_operations_never_raise p u cd cat cm name ccm eid rcm a b
    pid q v hcm field w :
  (exists r, fst (create_project u name cd ccm w) = inr r) /\
  (exists r, fst (update_project p u cd cat cm w) = inr r) /\
  (exists r, fst (rollback_to_version p eid u rcm w) = inr r) /\
  (exists r, fst (compare_canvas_versions p a b w) = inr r) /\
  (exists r, fst (get_project_latest p u w) = inr r) /\
  (exists r, fst (get_latest_version p w) = inr r) /\
  (exists r, fst (get_latest_edit_id p w) = inr r) /\
  (exists r, fst (insert_project u name w) = inr r) /\
  (exists r, fst (insert_edit_history pid v u cat hcm w) = inr r) /\
  (exists r, fst (insert_canvas_details eid field w) = inr r) /\
  (forall m w', update_project p u cd cat cm w = (inr (CFailure m), w') ->
     db w' = db w /\ (m = MsgNoAccess \/ exists e, m = MsgUpdateFailed e)) /\
  (forall m w', create_project u name cd ccm w = (inr (CreateFailure m), w') ->
     db w' = db w /\ exists e, m = MsgCreateFailed e) /\
  fst (insert_edit_history None v u cat hcm w) = inr 0 /\
  (forall r w', insert_edit_history (Some q) v u cat hcm w = (r, w') ->
     project_exists q (db w) = false \/ user_exists u (users w) = false ->
     r = inr 0 /\ db w' = db w).
Proof.
  split; [apply catch_all_total|]. split; [apply catch_all_total|].
  split; [apply catch_all_total|]. split; [apply catch_all_total|].
  split; [apply catch_all_total|]. split; [apply catch_all_total|].
  split; [apply catch_all_total|]. split; [apply catch_all_total|].
  split; [apply catch_all_total|]. split; [apply catch_all_total|].
  split; [|split; [|split]].
  - intros m w' H.
    pose proof H as H'. unfold update_project in H'.
    apply catch_all_inv in H' as ([e|x] & Hb & Hr).
    + injection Hr as ->. split; [|eauto].
      apply update_project_inv in H as [(m' & _ & Hd & _)|(? & ? & ? & _)];
        [exact Hd|discriminate].
    + injection Hr as <-. split.
      * apply update_project_inv in H as [(m' & _ & Hd & _)|(? & ? & ? & _)];
          [exact Hd|discriminate].
      * left. clear H. inv_bind Hb. clear Hm. inv_bind Hb. clear Hm.
        match type of Hb with context [negb ?c] => destruct c end; cbn in Hb.
        -- inv_bind Hb. match type of Hm with _ = (inr ?t, _) => destruct t end.
           apply ret_inv in Hb as [? _]. discriminate.
        -- apply ret_inv in Hb as [Hx _]. congruence.
  - intros m w' H.
    apply create_project_inv in H as [(e & Hr & Hd)|(? & ? & ? & _)]; [|discriminate].
    injection Hr as ->. eauto.
  - destruct (insert_edit_history None v u cat hcm w) as [r w'] eqn:E. cbn.
    unfold insert_edit_history in E. apply catch_all_inv in E as ([e|x] & E & ->); [done|].
    exfalso. apply transaction_ok_inv in E as (w1 & w2 & _ & _ & _ & Hb & _).
    inv_bind Hb. clear Hm. inv_bind Hb. clear Hm. apply raise_inv in Hb as [? _]. discriminate.
  - apply insert_edit_history_unknown.
Qed.

(** C10: [create_project] and [update_project] read [canvas_data.get(name)]
    for the eleven recognized names only: a key outside them does not change
    the call's result or effect at all, and a recognized name missing from the
    mapping is stored as NULL.  On success, [update_project] and
    [create_project] each store exactly the eleven columns
    [new_columns canvas_data]. *)
Theorem C10_only_recognized_fields_persisted p u cd k v cat cm name ccm w :
  k ∉ fields ->
  update_project p u (<[k := v]> cd) cat cm w = update_project p u cd cat cm w /\
  create_project u name (<[k := v]> cd) ccm w = create_project u name cd ccm w /\
  (forall i f, fields !! i = Some f -> cd !! f = None -> new_columns cd !! i = Some None) /\
  (forall eid ver w', update_project p u cd cat cm w = (inr (CSuccess eid ver), w') ->
     details (db w') = details (db w) ++ [mkDetail eid (Columns (new_columns cd))]) /\
  (forall pid eid w', create_project u name cd ccm w = (inr (CreateSuccess pid eid), w') ->
     details (db w') = details (db w) ++ [mkDetail eid (Columns (new_columns cd))]).
Proof.
  intros Hk. split; [|split; [|split; [|split]]].
  - unfold update_project, up_write. rewrite canvas_get_fields_insert by exact Hk. done.
  - unfold create_project. rewrite canvas_get_fields_insert by exact Hk. done.
  - intros i f Hi Hf. unfold new_columns. rewrite !lookup_map, Hi. cbn.
    unfold canvas_get. rewrite Hf. done.
  - intros eid ver w' H.
    apply update_project_inv in H as [(m & Hx & _)|(eid' & ts & Hx & _ & Hd)];
      [discriminate|].
    injection Hx as -> _. rewrite Hd. done.
  - intros pid eid w' H.
    apply create_project_inv in H as [(e & Hx & _)|(pid' & eid' & Hx & _ & _ & Hd)];
      [discriminate|].
    injection Hx as _ ->. rewrite Hd. done.
Qed.

Lemma C10_only_recognized_fields_persisted_witness :
  ("note" ∉ fields) /\
  update_project 1 1 (<["note" := PyInt 7]> canvas_Y) manual None demo_world =
    update_project 1 1 canvas_Y manual None demo_world /\
  create_project 1 "P" (<["note" := PyInt 7]> canvas_Y) None demo_world =
    create_project 1 "P" canvas_Y None demo_world /\
  (forall i f, fields !! i = Some f -> canvas_Y !! f = None ->
     new_columns canvas_Y !! i = Some None) /\
  (forall eid ver w', update_project 1 1 canvas_Y manual None demo_world =
                        (inr (CSuccess eid ver), w') ->
     details (db w') = details (db demo_world) ++ [mkDetail eid (Columns (new_columns canvas_Y))]) /\
  (forall pid eid w', create_project 1 "P" canvas_Y None demo_world =
                        (inr (CreateSuccess pid eid), w') ->
     details (db w') = details (db demo_world) ++ [mkDetail eid (Columns (new_columns canvas_Y))]).
Proof.
  assert (Hk : "note" ∉ fields).
  { apply (bool_decide_unpack (¬ ("note" ∈ fields))). vm_compute. exact I. }
  split; [exact Hk|].
  apply (C10_only_recognized_fields_persisted 1 1 canvas_Y "note" (PyInt 7) manual None "P" None
           demo_world Hk).
Defined.


(** * Further properties of the code *)

Lemma catch_all_inr {A} (m : M A) h w r w' :
  catch_all m h w = (r, w') -> exists a, r = inr a.
Proof. intros H. apply catch_all_inv in H as (r0 & _ & ->). destruct r0; eauto. Qed.

(** ** [get_project_latest] for a non-member *)

(** [get_project_latest] returns [None] to a user who is not a member of the
    project, whatever the tables hold. *)
Theorem get_project_latest_non_member p u w :
  is_member p u (db w) = false -> fst (get_project_latest p u w) = inr None.
Proof.
  intros Hm. destruct (get_project_latest p u w) as [r w'] eqn:E. cbn.
  pose proof E as E'. unfold get_project_latest in E'.
  apply catch_all_inr in E' as [[lv|] ->]; [|done].
  destruct (get_project_latest_inv p u w _ _ lv E eq_refl) as [Hm' _]. congruence.
Qed.

Lemma get_project_latest_non_member_witness :
  is_member 1 2 (db demo_world) = false /\ fst (get_project_latest 1 2 demo_world) = inr None.
Proof.
  split; [vm_compute; reflexivity|].
  apply get_project_latest_non_member. vm_compute. reflexivity.
Defined.

(** ** [delete_project] *)

Lemma sql_admin_exists_inv p u w r w' :
  sql_admin_exists p u w = (r, w') ->
  db w' = db w /\ (r = inr (is_admin p u (db w)) \/ r = inl DBError).
Proof. unfold sql_admin_exists. run_prims; naive_solver. Qed.

Lemma sql_delete_project_inv a p w r w' :
  sql_delete_project a p w = (r, w') ->
  (r = inl DBError /\ db w' = db w) \/
  (r = inr tt /\
   ((a = Cascade /\ db w' = delete_cascade p (db w)) \/
    (a = NoAction /\ project_referenced p (db w) = false /\
     db w' = store_without_project p (db w)))).
Proof. unfold sql_delete_project, store_without_project. destruct a; run_prims; naive_solver. Qed.

Lemma delete_project_inv a p u w r w' :
  delete_project a p u w = (r, w') ->
  (exists m, r = inr (DFailure m) /\ db w' = db w /\
     (is_admin p u (db w) = false ->
      m = MsgNoDeletePermission \/ m = MsgDeleteFailed DBError)) \/
  (r = inr DSuccess /\ is_admin p u (db w) = true /\
   ((a = Cascade /\ db w' = delete_cascade p (db w)) \/
    (a = NoAction /\ project_referenced p (db w) = false /\
     db w' = store_without_project p (db w)))).
Proof.
  unfold delete_project. intros H. apply catch_all_inv in H as (r0 & H & ->).
  inv_bind H.
  { unfold get_async_connection in Hm. apply stmt_inv in Hm as [Hd [?|He]]; subst; [discriminate|].
    left. injection He as ->. eauto. }
  unfold get_async_connection in Hm. apply stmt_inv in Hm as [Hd _].
  inv_bind H.
  { apply sql_admin_exists_inv in Hm as [Hd' [?|He]]; subst; [discriminate|].
    left. injection He as ->. eexists. split; [done|]. split; [congruence|]. auto. }
  apply sql_admin_exists_inv in Hm as [Hd' [Ha|?]]; [|discriminate].
  injection Ha as ->.
  destruct (is_admin p u (db w0)) eqn:Hadm; rewrite Hd in Hadm, Hd'; cbn in H.
  2:{ apply ret_inv in H as [-> ->]. left. eexists. split; [done|]. split; [congruence|]. auto. }
  inv_bind H.
  { apply transaction_inv in Hm as [(e' & He & Hd'')|(? & ? & ? & ? & _ & _ & He & _)];
      subst; [|discriminate].
    injection He as <-. left. eexists. split; [done|]. split; [congruence|]. congruence. }
  apply transaction_inv in Hm as [(? & ? & _)|(ts & wa & b & wb & Hd1 & Hb & Ha & Hd2)];
    [discriminate|].
  apply ret_inv in H as [-> ->]. right. split; [done|]. split; [done|].
  apply sql_delete_project_inv in Hb as [[? _]|[_ Hb]]; [discriminate|].
  assert (Hw : db wa = db w) by congruence.
  rewrite Hw in Hb. rewrite Hd2. exact Hb.
Qed.

(** Only an admin of the project can delete it: for any other user, members
    with the [editor] role included, [delete_project] returns the failure
    dictionary (no permission, or the generic failure when the connection or
    the role query fails) and deletes nothing. *)
Theorem delete_project_requires_admin a p u w :
  is_admin p u (db w) = false ->
  (exists m, fst (delete_project a p u w) = inr (DFailure m) /\
             (m = MsgNoDeletePermission \/ m = MsgDeleteFailed DBError)) /\
  db (snd (delete_project a p u w)) = db w.
Proof.
  intros Ha. destruct (delete_project a p u w) as [r w'] eqn:E. cbn.
  apply delete_project_inv in E as [(m & -> & Hd & Hm)|(_ & Ha' & _)]; [|congruence].
  split; [|done]. exists m. auto.
Qed.

Lemma delete_project_requires_admin_witness :
  is_admin 1 2 (db demo_world) = false /\
  (exists m, fst (delete_project Cascade 1 2 demo_world) = inr (DFailure m) /\
             (m = MsgNoDeletePermission \/ m = MsgDeleteFailed DBError)) /\
  db (snd (delete_project Cascade 1 2 demo_world)) = db demo_world.
Proof.
  split; [vm_compute; reflexivity|].
  apply delete_project_requires_admin. vm_compute. reflexivity.
Defined.

Lemma is_admin_referenced p u s :
  is_admin p u s = true -> project_referenced p s = true.
Proof.
  unfold is_admin, project_referenced. rewrite !existsb_exists.
  intros (m & Hin & Hm). apply orb_true_intro. left. apply existsb_exists.
  exists m. split; [done|]. apply andb_prop in Hm as [Hm _]. apply andb_prop in Hm as [Hm _].
  exact Hm.
Qed.

(** With the foreign keys declared in [db_operations.py] (no [ON DELETE]
    action), [delete_project] never deletes anything: an admin's own
    [project_members] row references the project, so the server refuses the
    [DELETE], the transaction is rolled back and the call returns its failure
    dictionary. *)
Theorem delete_project_no_action_deletes_nothing p u w :
  (exists m, fst (delete_project NoAction p u w) = inr (DFailure m)) /\
  db (snd (delete_project NoAction p u w)) = db w.
Proof.
  destruct (delete_project NoAction p u w) as [r w'] eqn:E. cbn.
  apply delete_project_inv in E
    as [(m & -> & Hd & _)|(_ & Ha & [[? _]|(_ & Hr & _)])]; [eauto|discriminate|].
  apply is_admin_referenced in Ha. congruence.
Qed.

(** With [ON DELETE CASCADE], as [delete_project] expects, a successful
    delete leaves no row of the project in any table, removes the details rows
    of its edits, and keeps every other project's edit history as it was. *)
Theorem delete_project_cascade_removes_project p u w :
  fst (delete_project Cascade p u w) = inr DSuccess ->
  let s' := db (snd (delete_project Cascade p u w)) in
  is_admin p u (db w) = true /\
  project_exists p s' = false /\ project_referenced p s' = false /\
  (forall r d, r ∈ rows_of p (edit_history (db w)) -> d ∈ details s' ->
               d_edit_id d <> edit_id r) /\
  (forall q, q <> p -> rows_of q (edit_history s') = rows_of q (edit_history (db w))).
Proof.
  destruct (delete_project Cascade p u w) as [r w'] eqn:E. cbn. intros ->.
  apply delete_project_inv in E
    as [(m & Hx & _)|(_ & Ha & [[_ Hd]|(? & _)])]; [discriminate| |discriminate].
  rewrite Hd. unfold delete_cascade, project_exists, project_referenced. cbn.
  split; [done|]. split; [|split; [|split]].
  - apply not_true_is_false. intros Hx. apply existsb_exists in Hx as (x & Hx & Hq).
    apply list_elem_of_In, list_elem_of_filter in Hx as [Hne _].
    apply Nat.eqb_eq in Hq. done.
  - apply orb_false_intro; apply not_true_is_false; intros Hx;
      apply existsb_exists in Hx as (x & Hx & Hq);
      apply list_elem_of_In, list_elem_of_filter in Hx as [Hne _];
      apply Nat.eqb_eq in Hq; done.
  - intros row d Hr Hdet He. apply list_elem_of_filter in Hdet as [Hn _]. apply Hn.
    rewrite He. apply list_elem_of_fmap. eauto.
  - intros q Hq. unfold rows_of. apply list_filter_filter_l. intros x ->. done.
Qed.

Lemma delete_project_cascade_removes_project_witness :
  fst (delete_project Cascade 1 1 demo_world) = inr DSuccess /\
  (let s' := db (snd (delete_project Cascade 1 1 demo_world)) in
   is_admin 1 1 (db demo_world) = true /\
   project_exists 1 s' = false /\ project_referenced 1 s' = false /\
   (forall r d, r ∈ rows_of 1 (edit_history (db demo_world)) -> d ∈ details s' ->
                d_edit_id d <> edit_id r) /\
   (forall q, q <> 1 -> rows_of q (edit_history s') = rows_of q (edit_history (db demo_world)))).
Proof.
  split; [vm_compute; reflexivity|].
  apply delete_project_cascade_removes_project. vm_compute. reflexivity.
Defined.

(** ** Ordered listings: [get_edit_history] and [get_user_projects] *)

Lemma order_desc_sorted {A} (key : A -> nat) l : Sorted (key_ge key) (order_desc key l).
Proof.
  assert (Htot : Total (key_ge key)) by (intros x y; unfold key_ge; lia).
  apply (@Sorted_merge_sort _ (key_ge key) _ Htot).
Qed.

Lemma order_desc_perm {A} (key : A -> nat) l : order_desc key l ≡ₚ l.
Proof. apply merge_sort_Permutation. Qed.

Lemma get_edit_history_inv p u w r w' :
  get_edit_history p u w = (r, w') ->
  db w' = db w /\
  (r = inr [] \/
   (is_member p u (db w) = true /\
    r = inr (order_desc he_version (history_rows (users w) p (db w))))).
Proof.
  unfold get_edit_history, catch_all, get_async_connection, sql_member_exists,
    stmt, get_db, get_users, mbind, M_bind, mret, M_ret.
  repeat (cbn -[is_member history_rows order_desc];
          match goal with
          | |- context [existsb ?f ?l] => destruct (existsb f l)
          | |- context [is_member ?a ?b ?c] => destruct (is_member a b c) eqn:?
          end);
    intros [= <- <-]; cbn; auto.
Qed.

(** [get_edit_history] returns [[]] to a non-member; whatever it returns is
    ordered by version, highest first, and every entry is an edit_history row
    of the project with the e-mail of a [users] row of its author. *)
Theorem get_edit_history_sound p u w :
  (is_member p u (db w) = false -> fst (get_edit_history p u w) = inr []) /\
  (forall l, fst (get_edit_history p u w) = inr l ->
     Sorted (key_ge he_version) l /\
     Forall (fun e => exists r x,
               r ∈ rows_of p (edit_history (db w)) /\ x ∈ users w /\
               u_user_id x = e_user_id r /\
               e = mkHistory (edit_id r) (version r) (last_updated r) (update_category r)
                             (update_comment r) (u_email x)) l).
Proof.
  destruct (get_edit_history p u w) as [r w'] eqn:E. cbn.
  apply get_edit_history_inv in E as [_ [->|[Hm ->]]].
  - split; [done|]. intros l Hl. injection Hl as <-. split; constructor.
  - split; [congruence|]. intros l Hl. injection Hl as <-.
    split; [apply order_desc_sorted|]. rewrite order_desc_perm.
    apply Forall_forall. intros e He. unfold history_rows in He.
    apply list_elem_of_bind in He as (row & He & Hrow).
    apply list_elem_of_bind in He as (x & He & Hx).
    apply list_elem_of_singleton in He. apply list_elem_of_filter in Hx as [Hx Hxin].
    exists row, x. done.
Qed.

Lemma history_rows_ids users rows :
  Forall (fun r => length (filter (fun x => u_user_id x = e_user_id r) users) = 1) rows ->
  map he_edit_id
    (r ← rows;
     usr ← filter (fun x => u_user_id x = e_user_id r) users;
     [mkHistory (edit_id r) (version r) (last_updated r) (update_category r)
                (update_comment r) (u_email usr)]) = map edit_id rows.
Proof.
  induction rows as [|r rows IH]; intros Hall; [done|].
  apply Forall_cons in Hall as [Hr Hall]. cbn.
  destruct (filter (fun x => u_user_id x = e_user_id r) users) as [|x [|y l]];
    cbn in Hr; try discriminate.
  cbn. f_equal. apply IH. exact Hall.
Qed.

(** For a member, and with each author present once in [users],
    [get_edit_history] lists every edit of the project exactly once. *)
Theorem get_edit_history_complete p u w :
  faults w = [] -> is_member p u (db w) = true ->
  Forall (fun r => length (filter (fun x => u_user_id x = e_user_id r) (users w)) = 1)
         (rows_of p (edit_history (db w))) ->
  exists l, fst (get_edit_history p u w) = inr l /\
            map he_edit_id l ≡ₚ map edit_id (rows_of p (edit_history (db w))).
Proof.
  intros Hf Hm Hu.
  exists (order_desc he_version (history_rows (users w) p (db w))). split.
  - unfold get_edit_history, catch_all, get_async_connection, sql_member_exists,
      stmt, get_db, get_users, mbind, M_bind, mret, M_ret.
    cbn -[filter is_member history_rows order_desc]. rewrite Hf.
    cbn -[filter is_member history_rows order_desc]. rewrite Hm. reflexivity.
  - rewrite order_desc_perm. unfold history_rows. rewrite history_rows_ids by exact Hu.
    done.
Qed.

Lemma get_edit_history_complete_witness :
  faults demo_world = [] /\ is_member 1 1 (db demo_world) = true /\
  Forall (fun r => length (filter (fun x => u_user_id x = e_user_id r) (users demo_world)) = 1)
         (rows_of 1 (edit_history (db demo_world))) /\
  exists l, fst (get_edit_history 1 1 demo_world) = inr l /\
            map he_edit_id l ≡ₚ map edit_id (rows_of 1 (edit_history (db demo_world))).
Proof.
  assert (Hu : Forall (fun r => length (filter (fun x => u_user_id x = e_user_id r)
                                          (users demo_world)) = 1)
                      (rows_of 1 (edit_history (db demo_world)))).
  { vm_compute. repeat constructor. }
  split; [vm_compute; reflexivity|]. split; [vm_compute; reflexivity|]. split; [exact Hu|].
  apply get_edit_history_complete; [vm_compute; reflexivity|vm_compute; reflexivity|exact Hu].
Defined.

Lemma get_user_projects_inv u w r w' :
  get_user_projects u w = (r, w') ->
  db w' = db w /\
  (r = inr [] \/ r = inr (order_desc ps_last_updated (user_project_rows u (db w)))).
Proof.
  unfold get_user_projects. intros H. apply catch_all_inv in H as (r0 & H & ->).
  unfold get_async_connection in H. inv_bind H.
  { apply stmt_inv in Hm as [Hd _]. subst. auto. }
  apply stmt_inv in Hm as [Hd _]. inv_bind H.
  { apply stmt_inv in Hm as [Hd' _]. subst. split; [congruence|auto]. }
  apply stmt_inv in Hm as [Hd' _]. inv_bind H.
  apply get_db_inv in Hm as [Hs ->]. injection Hs as ->.
  apply ret_inv in H as [-> ->]. split; [congruence|]. right. rewrite Hd', Hd. done.
Qed.

(** [get_user_projects] lists, latest update first, only projects the user is
    a member of, each with an edit_history row carrying the project's highest
    version: a project without any edit is never listed. *)
Theorem get_user_projects_sound u w l :
  fst (get_user_projects u w) = inr l ->
  Sorted (key_ge ps_last_updated) l /\
  Forall (fun e => exists p r,
            p ∈ projects (db w) /\ is_member (p_project_id p) u (db w) = true /\
            r ∈ rows_of (p_project_id p) (edit_history (db w)) /\
            version r = max_version (p_project_id p) (db w) /\
            e = mkSummary (p_project_id p) (p_project_name p) (p_created_at p)
                          (last_updated r) (version r)) l.
Proof.
  destruct (get_user_projects u w) as [r w'] eqn:E. cbn. intros ->.
  apply get_user_projects_inv in E as [_ [[= ->]|[= ->]]].
  - split; constructor.
  - split; [apply order_desc_sorted|]. rewrite order_desc_perm.
    apply Forall_forall. intros e He. unfold user_project_rows in He.
    apply list_elem_of_bind in He as (p & He & Hp).
    apply list_elem_of_bind in He as (m & He & Hm).
    apply list_elem_of_bind in He as (r & He & Hr).
    apply list_elem_of_singleton in He.
    apply list_elem_of_filter in Hm as [[Hmp Hmu] Hm].
    apply list_elem_of_filter in Hr as [[Hrp Hrv] Hr].
    exists p, r. split; [done|]. split.
    { unfold is_member. apply existsb_exists. exists m.
      split; [by apply list_elem_of_In|]. rewrite Hmp, Hmu, !Nat.eqb_refl. done. }
    split; [|done]. unfold rows_of. apply list_elem_of_filter. done.
Qed.

Lemma get_user_projects_sound_witness :
  fst (get_user_projects 1 demo_world) = inr [mkSummary 1 "P" 0 0 1] /\
  Sorted (key_ge ps_last_updated) [mkSummary 1 "P" 0 0 1] /\
  Forall (fun e => exists p r,
            p ∈ projects (db demo_world) /\ is_member (p_project_id p) 1 (db demo_world) = true /\
            r ∈ rows_of (p_project_id p) (edit_history (db demo_world)) /\
            version r = max_version (p_project_id p) (db demo_world) /\
            e = mkSummary (p_project_id p) (p_project_name p) (p_created_at p)
                          (last_updated r) (version r)) [mkSummary 1 "P" 0 0 1].
Proof.
  assert (H : fst (get_user_projects 1 demo_world) = inr [mkSummary 1 "P" 0 0 1])
    by (vm_compute; reflexivity).
  split; [exact H|]. exact (get_user_projects_sound 1 demo_world _ H).
Defined.

Lemma foldr_max_elem (l : list nat) : l <> [] -> foldr Nat.max 0 l ∈ l.
Proof.
  induction l as [|x l IH]; intros Hl; [done|]. cbn.
  destruct l as [|y l'].
  - cbn. rewrite Nat.max_0_r. apply elem_of_cons. auto.
  - destruct (Nat.max_spec x (foldr Nat.max 0 (y :: l'))) as [[_ ->]|[_ ->]].
    + apply elem_of_cons. right. apply IH. done.
    + apply elem_of_cons. auto.
Qed.

Lemma max_version_reached p s :
  rows_of p (edit_history s) <> [] ->
  exists r, r ∈ rows_of p (edit_history s) /\ version r = max_version p s.
Proof.
  intros Hne. unfold max_version, versions_of.
  assert (Hm : map version (rows_of p (edit_history s)) <> []).
  { destruct (rows_of p (edit_history s)); done. }
  apply foldr_max_elem, list_elem_of_fmap in Hm as (r & Hv & Hr).
  exists r. done.
Qed.

(** Without a failure, every project the user is a member of and that has at
    least one edit is listed, with its highest version. *)
Theorem get_user_projects_complete u w p :
  faults w = [] -> p ∈ projects (db w) ->
  is_member (p_project_id p) u (db w) = true ->
  rows_of (p_project_id p) (edit_history (db w)) <> [] ->
  exists l e, fst (get_user_projects u w) = inr l /\ e ∈ l /\
    ps_project_id e = p_project_id p /\ ps_project_name e = p_project_name p /\
    ps_current_version e = max_version (p_project_id p) (db w).
Proof.
  intros Hf Hp Hm Hne.
  exists (order_desc ps_last_updated (user_project_rows u (db w))).
  destruct (max_version_reached _ _ Hne) as (r & Hr & Hv).
  unfold is_member in Hm. apply existsb_exists in Hm as (m & Hmin & Hmb).
  apply andb_true_iff in Hmb as [Hmp Hmu].
  apply Nat.eqb_eq in Hmp, Hmu.
  exists (mkSummary (p_project_id p) (p_project_name p) (p_created_at p)
                    (last_updated r) (version r)).
  split.
  { unfold get_user_projects, catch_all, get_async_connection, stmt, get_db,
      mbind, M_bind, mret, M_ret.
    cbn -[user_project_rows order_desc]. rewrite Hf. reflexivity. }
  split; [|done].
  rewrite order_desc_perm. unfold user_project_rows.
  apply list_elem_of_bind. exists p. split; [|done].
  apply list_elem_of_bind. exists m. split.
  - apply list_elem_of_bind. exists r. split; [by apply list_elem_of_singleton|].
    unfold rows_of in Hr. apply list_elem_of_filter in Hr as [Hrp Hr].
    apply list_elem_of_filter. done.
  - apply list_elem_of_filter. split; [done|]. by apply list_elem_of_In.
Qed.

Lemma get_user_projects_complete_witness :
  faults demo_world = [] /\ mkProject 1 1 "P" 0 ∈ projects (db demo_world) /\
  is_member 1 1 (db demo_world) = true /\
  rows_of 1 (edit_history (db demo_world)) <> [] /\
  exists l e, fst (get_user_projects 1 demo_world) = inr l /\ e ∈ l /\
    ps_project_id e = 1 /\ ps_project_name e = "P" /\
    ps_current_version e = max_version 1 (db demo_world).
Proof.
  assert (Hp : mkProject 1 1 "P" 0 ∈ projects (db demo_world)).
  { vm_compute. apply elem_of_cons. left. reflexivity. }
  assert (Hne : rows_of 1 (edit_history (db demo_world)) <> []).
  { vm_compute. discriminate. }
  split; [vm_compute; reflexivity|]. split; [exact Hp|].
  split; [vm_compute; reflexivity|]. split; [exact Hne|].
  apply (get_user_projects_complete 1 demo_world (mkProject 1 1 "P" 0));
    [vm_compute; reflexivity|exact Hp|vm_compute; reflexivity|exact Hne].
Defined.

(** ** [insert_edit_history] and [create_project] *)

(** [insert_edit_history] either returns [0] and leaves the tables as they
    were (a [None] project id always ends so), or appends exactly one
    edit_history row, with the given project, version, author and category,
    and returns its id; an empty comment is stored as NULL. *)
Theorem insert_edit_history_effect p v u cat cm w r w' :
  insert_edit_history p v u cat cm w = (r, w') ->
  (r = inr 0 /\ db w' = db w) \/
  (exists pid eid ts, p = Some pid /\ r = inr eid /\
     db w' = add_edit (db w)
               (mkEdit eid pid v u cat
                  (match cm with
                   | Some c => if String.eqb c "" then None else Some c
                   | None => None end) ts)).
Proof.
  unfold insert_edit_history. intros H. apply catch_all_inv in H as (r0 & H & ->).
  apply transaction_inv in H as [(e & -> & Hd)|(ts & w1 & a & w2 & Hd1 & Hb & -> & Hd2)].
  { left. done. }
  destruct p as [pid|].
  - apply sql_insert_edit_inv in Hb as [[? _]|(eid & Ha & Hd)]; [discriminate|].
    injection Ha as ->. right. exists pid, eid, ts. rewrite Hd2, Hd, Hd1. done.
  - inv_bind Hb. apply raise_inv in Hb as [? _]. discriminate.
Qed.

Lemma insert_edit_history_effect_witness :
  insert_edit_history (Some 1) 2 1 manual None demo_world = (inr 2, demo_world_bare_edit) /\
  ((inr 2 : exn + nat) = inr 0 /\ db demo_world_bare_edit = db demo_world \/
   (exists pid eid ts, Some 1 = Some pid /\ (inr 2 : exn + nat) = inr eid /\
      db demo_world_bare_edit = add_edit (db demo_world) (mkEdit eid pid 2 1 manual None ts))).
Proof.
  assert (E : insert_edit_history (Some 1) 2 1 manual None demo_world = (inr 2, demo_world_bare_edit))
    by (vm_compute; reflexivity).
  split; [exact E|]. exact (insert_edit_history_effect _ _ _ _ _ _ _ _ E).
Defined.

(** [create_project] is all or nothing: on failure the tables are unchanged.
    On success the creator is a registered user, the name fits
    [VARCHAR(255)], and it has appended the project row, whose [created_at]
    is the application's [datetime.now()] (the client clock at the call), version 1
    of the project (category manual, comment defaulting to ["初期作成"],
    [last_updated] the server's [now()] at BEGIN), its eleven-column details
    row, and an admin membership for the creator. *)
Theorem create_project_atomic u name cd cm w r w' :
  create_project u name cd cm w = (r, w') ->
  (exists e, r = inr (CreateFailure (MsgCreateFailed e)) /\ db w' = db w) \/
  (exists pid eid, r = inr (CreateSuccess pid eid) /\
     user_exists u (users w) = true /\ varchar_fits 255 name = true /\
     db w' = mkStore (projects (db w) ++ [mkProject pid u name (client_clock w)])
                     (project_members (db w) ++ [mkMember pid u admin])
                     (edit_history (db w) ++
                        [mkEdit eid pid 1 u manual
                           (Some (match cm with
                                  | Some c => if String.eqb c "" then "初期作成" else c
                                  | None => "初期作成" end)) (clock w)])
                     (details (db w) ++ [mkDetail eid (Columns (new_columns cd))])).
Proof. apply create_project_inv. Qed.

Lemma create_project_atomic_witness :
  create_project 1 "P" canvas_X None empty_world = (inr (CreateSuccess 1 1), demo_world) /\
  ((exists e, (inr (CreateSuccess 1 1) : exn + create_result) = inr (CreateFailure (MsgCreateFailed e)) /\
              db demo_world = db empty_world) \/
   (exists pid eid, (inr (CreateSuccess 1 1) : exn + create_result) = inr (CreateSuccess pid eid) /\
      user_exists 1 (users empty_world) = true /\ varchar_fits 255 "P" = true /\
      db demo_world = mkStore (projects (db empty_world) ++
                                 [mkProject pid 1 "P" (client_clock empty_world)])
                              (project_members (db empty_world) ++ [mkMember pid 1 admin])
                              (edit_history (db empty_world) ++
                                 [mkEdit eid pid 1 1 manual (Some "初期作成") (clock empty_world)])
                              (details (db empty_world) ++
                                 [mkDetail eid (Columns (new_columns canvas_X))]))).
Proof.
  assert (E : create_project 1 "P" canvas_X None empty_world = (inr (CreateSuccess 1 1), demo_world))
    by (vm_compute; reflexivity).
  split; [exact E|]. exact (create_project_atomic _ _ _ _ _ _ _ E).
Defined.

(** ** Values that are not text in the recognized fields *)

Lemma mapM_text_column_ok (l : list pyval) w cols w' :
  mapM text_column l w = (inr cols, w') -> forall z, PyInt z ∉ l.
Proof.
  revert cols w'. induction l as [|v l IH]; intros cols w' H z Hz;
    [by apply not_elem_of_nil in Hz|].
  cbn in H. unfold mbind, M_bind, mret, M_ret, raise in H.
  apply elem_of_cons in Hz as [<-|Hz]; [cbn in H; discriminate|].
  destruct v; cbn in H;
    destruct (mapM text_column l w) as [[e|xs] w1] eqn:E; try discriminate;
    exact (IH _ _ eq_refl z Hz).
Qed.

Lemma sql_insert_details_cols_ok eid vals w w' :
  sql_insert_details_cols eid vals w = (inr tt, w') -> forall z, PyInt z ∉ vals.
Proof.
  unfold sql_insert_details_cols. intros H. inv_bind H. eapply mapM_text_column_ok. exact Hm.
Qed.

Lemma canvas_get_int_elem cd f z :
  f ∈ fields -> cd !! f = Some (PyInt z) -> PyInt z ∈ map (canvas_get cd) fields.
Proof.
  intros Hf Hz. apply list_elem_of_fmap. exists f. split; [|done].
  unfold canvas_get. rewrite Hz. done.
Qed.

(** [update_project] with an integer under a recognized field name fails
    (asyncpg refuses a non-str value for a text column) and writes nothing. *)
Theorem update_project_int_field_fails p u cd cat cm f z w :
  f ∈ fields -> cd !! f = Some (PyInt z) ->
  (exists m, fst (update_project p u cd cat cm w) = inr (CFailure m)) /\
  db (snd (update_project p u cd cat cm w)) = db w.
Proof.
  intros Hf Hz. pose proof (canvas_get_int_elem _ _ _ Hf Hz) as Hin.
  destruct (update_project p u cd cat cm w) as [r w'] eqn:E. cbn.
  assert (Hs : forall eid v, r <> inr (CSuccess eid v)).
  { intros eid v ->. revert E. unfold update_project. intros H.
    apply catch_all_inv in H as ([e|a] & H & Hr); [discriminate|]. injection Hr as <-.
    inv_bind H. clear Hm. inv_bind H. clear Hm. destruct a0; cbn in H.
    2:{ apply ret_inv in H as [? _]. discriminate. }
    inv_bind H. apply transaction_inv in Hm as [(? & ? & _)|(ts & wa & b & wb & _ & Hb & _ & _)];
      [discriminate|].
    inv_bind Hb. clear Hm. unfold up_write in Hb. inv_bind Hb. clear Hm. inv_bind Hb.
    destruct a3. apply sql_insert_details_cols_ok with (z := z) in Hm. contradiction. }
  apply update_project_inv in E as [(m & -> & Hd & _)|(eid & ts & -> & _)].
  - eauto.
  - exfalso. eapply Hs. reflexivity.
Qed.

Lemma update_project_int_field_fails_witness :
  "problem" ∈ fields /\ (<["problem" := PyInt 7]> canvas_X : gmap string pyval) !! "problem" = Some (PyInt 7) /\
  (exists m, fst (update_project 1 1 (<["problem" := PyInt 7]> canvas_X) manual None demo_world)
               = inr (CFailure m)) /\
  db (snd (update_project 1 1 (<["problem" := PyInt 7]> canvas_X) manual None demo_world))
    = db demo_world.
Proof.
  assert (Hf : "problem" ∈ fields) by (apply elem_of_cons; left; reflexivity).
  assert (Hz : (<["problem" := PyInt 7]> canvas_X : gmap string pyval) !! "problem" = Some (PyInt 7))
    by apply lookup_insert_eq.
  split; [exact Hf|]. split; [exact Hz|].
  apply (update_project_int_field_fails 1 1 _ manual None "problem" 7 demo_world Hf Hz).
Defined.

(** The same holds for [create_project]: nothing is created. *)
Theorem create_project_int_field_fails u name cd cm f z w :
  f ∈ fields -> cd !! f = Some (PyInt z) ->
  (exists e, fst (create_project u name cd cm w) = inr (CreateFailure (MsgCreateFailed e))) /\
  db (snd (create_project u name cd cm w)) = db w.
Proof.
  intros Hf Hz. pose proof (canvas_get_int_elem _ _ _ Hf Hz) as Hin.
  destruct (create_project u name cd cm w) as [r w'] eqn:E. cbn.
  assert (Hs : forall pid eid, r <> inr (CreateSuccess pid eid)).
  { intros pid eid ->. revert E. unfold create_project. intros H.
    apply catch_all_inv in H as ([e|a] & H & Hr); [discriminate|]. injection Hr as <-.
    inv_bind H. clear Hm. inv_bind H.
    apply transaction_inv in Hm as [(? & ? & _)|(ts & wa & b & wb & _ & Hb & _ & _)];
      [discriminate|].
    do 3 (inv_bind Hb; clear Hm). inv_bind Hb.
    match type of Hm with _ = (inr ?t, _) => destruct t end.
    apply sql_insert_details_cols_ok with (z := z) in Hm. contradiction. }
  apply create_project_inv in E as [(e & -> & Hd)|(pid & eid & -> & _)].
  - eauto.
  - exfalso. eapply Hs. reflexivity.
Qed.

Lemma create_project_int_field_fails_witness :
  "problem" ∈ fields /\ (<["problem" := PyInt 7]> canvas_X : gmap string pyval) !! "problem" = Some (PyInt 7) /\
  (exists e, fst (create_project 1 "Q" (<["problem" := PyInt 7]> canvas_X) None demo_world)
               = inr (CreateFailure (MsgCreateFailed e))) /\
  db (snd (create_project 1 "Q" (<["problem" := PyInt 7]> canvas_X) None demo_world))
    = db demo_world.
Proof.
  assert (Hf : "problem" ∈ fields) by (apply elem_of_cons; left; reflexivity).
  assert (Hz : (<["problem" := PyInt 7]> canvas_X : gmap string pyval) !! "problem" = Some (PyInt 7))
    by apply lookup_insert_eq.
  split; [exact Hf|]. split; [exact Hz|].
  apply (create_project_int_field_fails 1 "Q" _ None "problem" 7 demo_world Hf Hz).
Defined.

(** ** The SQLAlchemy helpers of [db_operations.py] and [main.py] *)

Lemma filter_details_none (oeid : option nat) (l : list detail_row) :
  oeid = None -> filter (fun d => Some (d_edit_id d) = oeid) l = [].
Proof. intros ->. induction l as [|d l IH]; [done|]. rewrite filter_cons_False; done. Qed.

Lemma filter_details_absent eid (l : list detail_row) :
  existsb (fun d => Nat.eqb (d_edit_id d) eid) l = false ->
  filter (fun d => Some (d_edit_id d) = Some eid) l = [].
Proof.
  induction l as [|d l IH]; intros H; [done|]. cbn in H.
  apply orb_false_iff in H as [Hd Hl]. apply Nat.eqb_neq in Hd.
  rewrite filter_cons_False; [by apply IH|]. intros [= ?]. done.
Qed.

(** [get_canvas_details(None)] is always [None]: [Detail.edit_id == None]
    compiles to [IS NULL], which no row matches. *)
Lemma get_canvas_details_none w : fst (get_canvas_details None w) = inr None.
Proof.
  destruct (get_canvas_details None w) as [r w'] eqn:E. cbn.
  unfold get_canvas_details in E. apply catch_all_inv in E as (r0 & E & ->).
  apply transaction_inv in E as [(e & -> & _)|(ts & w1 & a & w2 & _ & Hb & -> & _)]; [done|].
  inv_bind Hb. clear Hm. inv_bind Hb. apply get_db_inv in Hm as [Hs ->]. injection Hs as ->.
  rewrite filter_details_none in Hb by done. cbn in Hb. unfold mret, M_ret in Hb.
  injection Hb as <- _. done.
Qed.

(** [GET /projects/{project_id}/latest] answers [None] for a project with no
    edit_history row, whatever happens on the server. *)
Theorem get_latest_canvas_no_edits p w :
  rows_of p (edit_history (db w)) = [] -> fst (get_latest_canvas p w) = inr None.
Proof.
  intros Hp. unfold get_latest_canvas, mbind at 1, M_bind at 1.
  destruct (get_latest_edit_id p w) as [r w1] eqn:E.
  assert (Hr : r = inr None).
  { unfold get_latest_edit_id in E. apply catch_all_inv in E as (r0 & E & ->).
    apply transaction_inv in E as [(e & -> & _)|(ts & w2 & a & w3 & Hd & Hb & -> & _)]; [done|].
    inv_bind Hb. apply stmt_inv in Hm as [Hd' _].
    inv_bind Hb. apply get_db_inv in Hm as [Hs ->]. injection Hs as ->.
    rewrite Hd', Hd, Hp in Hb. apply ret_inv in Hb as [[= <-] _]. done. }
  subst r. apply get_canvas_details_none.
Qed.

Lemma get_latest_canvas_no_edits_witness :
  rows_of 2 (edit_history (db demo_world)) = [] /\ fst (get_latest_canvas 2 demo_world) = inr None.
Proof.
  assert (H : rows_of 2 (edit_history (db demo_world)) = []) by (vm_compute; reflexivity).
  split; [exact H|]. exact (get_latest_canvas_no_edits 2 demo_world H).
Defined.

Lemma get_canvas_details_single eid f w :
  faults w = [] ->
  filter (fun d => Some (d_edit_id d) = Some eid) (details (db w)) = [mkDetail eid (JsonField f)] ->
  fst (get_canvas_details (Some eid) w) = inr (Some {[eid := f]}).
Proof.
  intros Hf Hd.
  unfold get_canvas_details, catch_all, transaction, tx_begin, tx_commit, stmt, tick, get_db,
    mbind, M_bind, mret, M_ret.
  cbn -[filter]. rewrite Hf. cbn -[filter]. rewrite Hd. cbn.
  unfold mbind, M_bind, mret, M_ret. cbn. rewrite insert_empty. reflexivity.
Qed.

Lemma insert_canvas_details_ok eid f w :
  faults w = [] -> edit_exists eid (db w) = true -> details_exist eid (db w) = false ->
  exists w', insert_canvas_details eid f w = (inr true, w') /\ faults w' = [] /\
             db w' = add_detail (db w) (mkDetail eid (JsonField f)).
Proof.
  intros Hf He Hd. eexists. split.
  - unfold insert_canvas_details, catch_all, transaction, tx_begin, tx_commit,
      sql_insert_details, stmt, tick, get_db, put_db, mbind, M_bind, mret, M_ret.
    cbn. rewrite Hf. cbn. rewrite He, Hd. cbn. reflexivity.
  - cbn. split; [first [exact Hf|done]|reflexivity].
Qed.

(** Round trip: when the edit exists and has no details row yet,
    [insert_canvas_details] succeeds and [get_canvas_details] then returns
    exactly the stored mapping under the edit's id. *)
Theorem insert_then_get_canvas_details eid f w :
  faults w = [] -> edit_exists eid (db w) = true -> details_exist eid (db w) = false ->
  fst (insert_canvas_details eid f w) = inr true /\
  fst (get_canvas_details (Some eid) (snd (insert_canvas_details eid f w)))
    = inr (Some {[eid := f]}).
Proof.
  intros Hf He Hd. destruct (insert_canvas_details_ok eid f w Hf He Hd) as (w' & -> & Hf' & Hd').
  split; [done|]. cbn. apply get_canvas_details_single; [exact Hf'|].
  rewrite Hd'. cbn. rewrite filter_app, filter_details_absent by exact Hd.
  rewrite filter_cons_True by done. done.
Qed.

Lemma insert_then_get_canvas_details_witness :
  faults demo_world_bare_edit = [] /\ edit_exists 2 (db demo_world_bare_edit) = true /\
  details_exist 2 (db demo_world_bare_edit) = false /\
  fst (insert_canvas_details 2 canvas_Y demo_world_bare_edit) = inr true /\
  fst (get_canvas_details (Some 2) (snd (insert_canvas_details 2 canvas_Y demo_world_bare_edit)))
    = inr (Some {[2 := canvas_Y]}).
Proof.
  assert (Hf : faults demo_world_bare_edit = []) by (vm_compute; reflexivity).
  assert (He : edit_exists 2 (db demo_world_bare_edit) = true) by (vm_compute; reflexivity).
  assert (Hd : details_exist 2 (db demo_world_bare_edit) = false) by (vm_compute; reflexivity).
  split; [exact Hf|]. split; [exact He|]. split; [exact Hd|].
  exact (insert_then_get_canvas_details 2 canvas_Y demo_world_bare_edit Hf He Hd).
Defined.

Lemma insert_project_ok u n w :
  faults w = [] -> user_exists u (users w) = true -> varchar_fits 255 n = true ->
  exists w', insert_project u n w = (inr (Some (next_project_id w)), w') /\
    faults w' = [] /\ next_edit_id w' = next_edit_id w /\ users w' = users w /\
    db w' = mkStore (projects (db w) ++ [mkProject (next_project_id w) u n (clock w)])
                    (project_members (db w)) (edit_history (db w)) (details (db w)).
Proof.
  intros Hf Hu Hv. eexists. split.
  - unfold insert_project, catch_all, transaction, tx_begin, tx_commit, sql_insert_project,
      stmt, tick, fresh_project_id, get_db, get_users, put_db, mbind, M_bind, mret, M_ret.
    cbn -[user_exists varchar_fits]. rewrite Hf. cbn -[user_exists varchar_fits].
    rewrite Hu, Hv. cbn. reflexivity.
  - cbn. split; [first [exact Hf|done]|]. repeat split.
Qed.

Lemma comment_fits_nonempty cm :
  comment_fits cm = true ->
  comment_fits (match cm with
                | Some c => if String.eqb c "" then None else Some c
                | None => None end) = true.
Proof. destruct cm as [c|]; cbn; [destruct (String.eqb c "")|]; done. Qed.

Lemma insert_edit_history_ok pid v u cat cm w :
  faults w = [] -> project_exists pid (db w) = true ->
  user_exists u (users w) = true -> comment_fits cm = true ->
  exists w', insert_edit_history (Some pid) v u cat cm w = (inr (next_edit_id w), w') /\
    faults w' = [] /\
    db w' = add_edit (db w)
              (mkEdit (next_edit_id w) pid v u cat
                 (match cm with
                  | Some c => if String.eqb c "" then None else Some c
                  | None => None end) (clock w)).
Proof.
  intros Hf Hp Hu Hc. apply comment_fits_nonempty in Hc. eexists. split.
  - unfold insert_edit_history, catch_all, transaction, tx_begin, tx_commit,
      sql_insert_edit, stmt, tick, fresh_edit_id, get_db, get_users, put_db,
      mbind, M_bind, mret, M_ret.
    cbn -[project_exists user_exists comment_fits]. rewrite Hf.
    cbn -[project_exists user_exists comment_fits]. rewrite Hp, Hu, Hc. cbn. reflexivity.
  - cbn. split; [first [exact Hf|done]|reflexivity].
Qed.

Lemma get_latest_edit_id_single p r w :
  faults w = [] -> rows_of p (edit_history (db w)) = [r] ->
  exists w', get_latest_edit_id p w = (inr (Some (edit_id r)), w') /\
    faults w' = [] /\ db w' = db w.
Proof.
  intros Hf Hr. eexists. split.
  - unfold get_latest_edit_id, catch_all, transaction, tx_begin, tx_commit, stmt, tick,
      get_db, mbind, M_bind, mret, M_ret.
    cbn -[rows_of]. rewrite Hf. cbn -[rows_of]. rewrite Hr. reflexivity.
  - cbn. split; [first [exact Hf|done]|reflexivity].
Qed.

Lemma existsb_app_last {A} (f : A -> bool) l x : f x = true -> existsb f (l ++ [x]) = true.
Proof. intros H. rewrite existsb_app. cbn. rewrite H. apply orb_true_r. Qed.

(** [POST /projects] followed by [GET /projects/{project_id}/latest]: without a
    failure, and when the fresh ids are not yet used, registration returns
    the new project id, the new edit id and [True], and the latest canvas of
    the new project is the registered mapping under that edit id. *)
Theorem register_then_get_latest_canvas u n f w :
  faults w = [] -> user_exists u (users w) = true -> varchar_fits 255 n = true ->
  rows_of (next_project_id w) (edit_history (db w)) = [] ->
  details_exist (next_edit_id w) (db w) = false ->
  fst (register_project u n f w) = inr (Some (next_project_id w), next_edit_id w, true) /\
  fst (get_latest_canvas (next_project_id w) (snd (register_project u n f w)))
    = inr (Some {[next_edit_id w := f]}).
Proof.
  intros Hf Hu Hv Hr Hd.
  destruct (insert_project_ok u n w Hf Hu Hv) as (w1 & E1 & Hf1 & He1 & Hu1 & Hd1).
  assert (Hp : project_exists (next_project_id w) (db w1) = true).
  { unfold project_exists. rewrite Hd1. cbn. apply existsb_app_last. cbn. apply Nat.eqb_refl. }
  assert (Hu' : user_exists u (users w1) = true) by (rewrite Hu1; exact Hu).
  destruct (insert_edit_history_ok (next_project_id w) 1 u manual (Some "初回登録") w1
              Hf1 Hp Hu' eq_refl)
    as (w2 & E2 & Hf2 & Hd2).
  rewrite He1 in E2, Hd2.
  set (row := mkEdit (next_edit_id w) (next_project_id w) 1 u manual
                (if String.eqb "初回登録" "" then None else Some "初回登録") (clock w1)) in Hd2.
  assert (He : edit_exists (next_edit_id w) (db w2) = true).
  { unfold edit_exists. rewrite Hd2. cbn. apply existsb_app_last. cbn. apply Nat.eqb_refl. }
  assert (Hd' : details_exist (next_edit_id w) (db w2) = false).
  { unfold details_exist. rewrite Hd2, Hd1. exact Hd. }
  destruct (insert_canvas_details_ok (next_edit_id w) f w2 Hf2 He Hd') as (w3 & E3 & Hf3 & Hd3).
  assert (ER : register_project u n f w = (inr (Some (next_project_id w), next_edit_id w, true), w3)).
  { unfold register_project, mbind, M_bind. rewrite E1, E2, E3. reflexivity. }
  rewrite ER. split; [done|]. cbn [snd].
  assert (Hrows : rows_of (next_project_id w) (edit_history (db w3)) = [row]).
  { rewrite Hd3, Hd2, Hd1. cbn [add_detail add_edit edit_history].
    rewrite rows_of_app, Hr. unfold rows_of. rewrite filter_cons_True by done. done. }
  destruct (get_latest_edit_id_single _ _ w3 Hf3 Hrows) as (w4 & E4 & Hf4 & Hd4).
  unfold get_latest_canvas, mbind at 1, M_bind at 1. rewrite E4.
  apply get_canvas_details_single; [exact Hf4|].
  rewrite Hd4, Hd3, Hd2. cbn [add_detail add_edit details].
  rewrite filter_app, filter_details_absent by (rewrite Hd1; exact Hd).
  rewrite filter_cons_True by done. done.
Qed.

Lemma register_then_get_latest_canvas_witness :
  faults demo_world = [] /\ user_exists 1 (users demo_world) = true /\
  varchar_fits 255 "Q" = true /\
  rows_of (next_project_id demo_world) (edit_history (db demo_world)) = [] /\
  details_exist (next_edit_id demo_world) (db demo_world) = false /\
  fst (register_project 1 "Q" canvas_Y demo_world)
    = inr (Some (next_project_id demo_world), next_edit_id demo_world, true) /\
  fst (get_latest_canvas (next_project_id demo_world) (snd (register_project 1 "Q" canvas_Y demo_world)))
    = inr (Some {[next_edit_id demo_world := canvas_Y]}).
Proof.
  assert (Hf : faults demo_world = []) by (vm_compute; reflexivity).
  assert (Hr : rows_of (next_project_id demo_world) (edit_history (db demo_world)) = [])
    by (vm_compute; reflexivity).
  assert (Hd : details_exist (next_edit_id demo_world) (db demo_world) = false)
    by (vm_compute; reflexivity).
  assert (Hu : user_exists 1 (users demo_world) = true) by (vm_compute; reflexivity).
  assert (Hv : varchar_fits 255 "Q" = true) by (vm_compute; reflexivity).
  split; [exact Hf|]. split; [exact Hu|]. split; [exact Hv|].
  split; [exact Hr|]. split; [exact Hd|].
  exact (register_then_get_latest_canvas 1 "Q" canvas_Y demo_world Hf Hu Hv Hr Hd).
Defined.

Lemma find_app_absent {A} (f : A -> bool) l x :
  existsb f l = false -> f x = true -> List.find f (l ++ [x]) = Some x.
Proof.
  induction l as [|y l IH]; intros Hl Hx; cbn in *; [by rewrite Hx|].
  apply orb_false_iff in Hl as [Hy Hl]. rewrite Hy. auto.
Qed.

Lemma get_project_by_id_ok p w :
  faults w = [] ->
  fst (get_project_by_id p w) =
    inr (List.find (fun x => Nat.eqb (p_project_id x) p) (projects (db w))).
Proof.
  intros Hf.
  unfold get_project_by_id, catch_all, transaction, tx_begin, tx_commit, stmt, tick,
    get_db, mbind, M_bind, mret, M_ret.
  cbn. rewrite Hf. reflexivity.
Qed.

(** Round trip: without a failure, [insert_project] returns the fresh project
    id, and [get_project_by_id] on it returns the inserted row (creator, name
    and the transaction's timestamp), when the creator is a registered user
    and the name fits [VARCHAR(255)]. *)
Theorem insert_then_get_project_by_id u n w :
  faults w = [] -> user_exists u (users w) = true -> varchar_fits 255 n = true ->
  project_exists (next_project_id w) (db w) = false ->
  fst (insert_project u n w) = inr (Some (next_project_id w)) /\
  fst (get_project_by_id (next_project_id w) (snd (insert_project u n w)))
    = inr (Some (mkProject (next_project_id w) u n (clock w))).
Proof.
  intros Hf Hu Hv Hp.
  destruct (insert_project_ok u n w Hf Hu Hv) as (w1 & -> & Hf1 & _ & _ & Hd1).
  split; [done|]. cbn [snd]. rewrite (get_project_by_id_ok _ _ Hf1), Hd1. cbn [projects].
  rewrite find_app_absent; [done|exact Hp|]. cbn. apply Nat.eqb_refl.
Qed.

Lemma insert_then_get_project_by_id_witness :
  faults demo_world = [] /\ user_exists 1 (users demo_world) = true /\
  varchar_fits 255 "Q" = true /\
  project_exists (next_project_id demo_world) (db demo_world) = false /\
  fst (insert_project 1 "Q" demo_world) = inr (Some (next_project_id demo_world)) /\
  fst (get_project_by_id (next_project_id demo_world) (snd (insert_project 1 "Q" demo_world)))
    = inr (Some (mkProject (next_project_id demo_world) 1 "Q" (clock demo_world))).
Proof.
  assert (Hf : faults demo_world = []) by (vm_compute; reflexivity).
  assert (Hp : project_exists (next_project_id demo_world) (db demo_world) = false)
    by (vm_compute; reflexivity).
  assert (Hu : user_exists 1 (users demo_world) = true) by (vm_compute; reflexivity).
  assert (Hv : varchar_fits 255 "Q" = true) by (vm_compute; reflexivity).
  split; [exact Hf|]. split; [exact Hu|]. split; [exact Hv|]. split; [exact Hp|].
  exact (insert_then_get_project_by_id 1 "Q" demo_world Hf Hu Hv Hp).
Defined.

Lemma db_get_user_projects_ok scan u w :
  faults w = [] ->
  fst (DbOperations.get_user_projects scan u w) =
    inr (map (fun p => (p_project_id p, p_project_name p, p_created_at p))
             (filter (fun p => p_user_id p = u) (scan (projects (db w))))).
Proof.
  intros Hf. unfold DbOperations.get_user_projects, catch_all, stmt, get_db,
    mbind, M_bind, mret, M_ret.
  cbn -[filter]. rewrite Hf. reflexivity.
Qed.

(** [insert_project] followed by [db_operations.get_user_projects], in
    whatever order the server's scan returns the rows: the creator's listing
    gains the new project, and every other user's listing keeps its rows;
    both up to the order of the rows, which the query leaves open. *)
Theorem insert_project_then_list scan u n v w l :
  (forall ps, scan ps ≡ₚ ps) ->
  faults w = [] -> user_exists u (users w) = true -> varchar_fits 255 n = true ->
  fst (DbOperations.get_user_projects scan v w) = inr l ->
  fst (insert_project u n w) = inr (Some (next_project_id w)) /\
  exists l', fst (DbOperations.get_user_projects scan v (snd (insert_project u n w))) = inr l' /\
    l' ≡ₚ l ++ (if decide (u = v) then [(next_project_id w, n, clock w)] else []).
Proof.
  intros Hscan Hf Hu Hv Hl. rewrite (db_get_user_projects_ok _ _ _ Hf) in Hl.
  injection Hl as <-.
  destruct (insert_project_ok u n w Hf Hu Hv) as (w1 & -> & Hf1 & _ & _ & Hd1).
  split; [done|]. cbn [snd]. eexists. split; [apply (db_get_user_projects_ok _ _ _ Hf1)|].
  rewrite Hd1. cbn [projects]. rewrite !Hscan.
  rewrite filter_app, map_app. apply Permutation_app_head.
  destruct (decide (u = v)) as [->|Hne].
  - rewrite filter_cons_True by done. done.
  - rewrite filter_cons_False by done. done.
Qed.

Lemma insert_project_then_list_witness :
  (forall ps, (fun ps : list project_row => ps) ps ≡ₚ ps) /\
  faults demo_world = [] /\ user_exists 1 (users demo_world) = true /\
  varchar_fits 255 "Q" = true /\
  fst (DbOperations.get_user_projects (fun ps => ps) 1 demo_world) = inr [(1, "P", 0)] /\
  fst (insert_project 1 "Q" demo_world) = inr (Some (next_project_id demo_world)) /\
  exists l', fst (DbOperations.get_user_projects (fun ps => ps) 1
                    (snd (insert_project 1 "Q" demo_world))) = inr l' /\
    l' ≡ₚ [(1, "P", 0)] ++
            (if decide (1 = 1) then [(next_project_id demo_world, "Q", clock demo_world)] else []).
Proof.
  assert (Hs : forall ps, (fun ps : list project_row => ps) ps ≡ₚ ps) by (intros ps; reflexivity).
  assert (Hf : faults demo_world = []) by (vm_compute; reflexivity).
  assert (Hu : user_exists 1 (users demo_world) = true) by (vm_compute; reflexivity).
  assert (Hv : varchar_fits 255 "Q" = true) by (vm_compute; reflexivity).
  assert (Hl : fst (DbOperations.get_user_projects (fun ps => ps) 1 demo_world) = inr [(1, "P", 0)])
    by (vm_compute; reflexivity).
  split; [exact Hs|]. split; [exact Hf|]. split; [exact Hu|]. split; [exact Hv|].
  split; [exact Hl|].
  exact (insert_project_then_list (fun ps => ps) 1 "Q" 1 demo_world _ Hs Hf Hu Hv Hl).
Defined.

(** ** [rollback_to_version] only copies an edit of the same project *)

(** When the target edit does not belong to the project (or does not exist),
    [rollback_to_version] fails and writes nothing. *)
Theorem rollback_other_project_fails p eid u cm w :
  (forall row, lookup_edit eid (db w) = Some row -> e_project_id row <> p) ->
  (exists m, fst (rollback_to_version p eid u cm w) = inr (RFailure m)) /\
  db (snd (rollback_to_version p eid u cm w)) = db w.
Proof.
  intros Hother. destruct (rollback_to_version p eid u cm w) as [r w'] eqn:E. cbn.
  apply rollback_to_version_inv in E
    as [(m & -> & Hd & _)|(eid' & ts & cols & row & _ & _ & _ & Hrow & Hp & _)].
  - eauto.
  - exfalso. exact (Hother row Hrow Hp).
Qed.

Lemma rollback_other_project_fails_witness :
  (forall row, lookup_edit 1 (db demo_world) = Some row -> e_project_id row <> 2) /\
  (exists m, fst (rollback_to_version 2 1 1 None demo_world) = inr (RFailure m)) /\
  db (snd (rollback_to_version 2 1 1 None demo_world)) = db demo_world.
Proof.
  assert (H : forall row, lookup_edit 1 (db demo_world) = Some row -> e_project_id row <> 2).
  { intros row Hr. vm_compute in Hr. injection Hr as <-. cbn. lia. }
  split; [exact H|]. exact (rollback_other_project_fails 2 1 1 None demo_world H).
Defined.

(** ** [register_project] when the project row cannot be inserted *)

Lemma sql_insert_details_needs_edit eid payload w w' :
  sql_insert_details eid payload w = (inr tt, w') -> edit_exists eid (db w) = true.
Proof.
  unfold sql_insert_details. intros H. inv_bind H. apply stmt_inv in Hm as [Hd _].
  inv_bind H. apply get_db_inv in Hm as [Hs ->]. injection Hs as ->.
  destruct (edit_exists eid (db w0)) eqn:E; cbn in H.
  - rewrite Hd in E. exact E.
  - apply raise_inv in H as [? _]. discriminate.
Qed.

(** When [insert_project] fails, [register_project] still runs the two other
    helpers: [insert_edit_history(None, ...)] returns [0], and, with no edit
    of id [0], [insert_canvas_details] returns [False]; the tables are left
    unchanged. *)
Theorem register_project_insert_failed u n f w :
  fst (insert_project u n w) = inr None -> edit_exists 0 (db w) = false ->
  fst (register_project u n f w) = inr (None, 0, false) /\
  db (snd (register_project u n f w)) = db w.
Proof.
  intros Hi He0.
  destruct (insert_project u n w) as [r1 w1] eqn:E1. cbn in Hi. subst r1.
  assert (Hd1 : db w1 = db w).
  { unfold insert_project in E1. apply catch_all_inv in E1 as (r0 & E1 & Hr).
    apply transaction_inv in E1 as [(e & _ & Hd)|(ts & wa & a & wb & _ & Hb & -> & _)]; [done|].
    exfalso. inv_bind Hb. clear Hm. apply ret_inv in Hb as [Ha _]. injection Ha as ->. cbn in Hr.
    discriminate Hr. }
  destruct (insert_edit_history None 1 u manual (Some "初回登録") w1) as [r2 w2] eqn:E2.
  assert (H2 : r2 = inr 0 /\ db w2 = db w1).
  { apply insert_edit_history_effect in E2 as [?|(pid & ? & ? & ? & _)]; [done|discriminate]. }
  destruct H2 as [-> Hd2].
  destruct (insert_canvas_details 0 f w2) as [r3 w3] eqn:E3.
  assert (H3 : r3 = inr false /\ db w3 = db w2).
  { unfold insert_canvas_details in E3. apply catch_all_inv in E3 as (r0 & E3 & ->).
    apply transaction_inv in E3 as [(e & -> & Hd)|(ts & wa & a & wb & Hda & Hb & -> & _)];
      [done|].
    exfalso. inv_bind Hb. destruct a0.
    apply sql_insert_details_needs_edit in Hm. rewrite Hda, Hd2, Hd1, He0 in Hm. discriminate. }
  destruct H3 as [-> Hd3].
  assert (ER : register_project u n f w = (inr (None, 0, false), w3)).
  { unfold register_project, mbind, M_bind. rewrite E1, E2, E3. reflexivity. }
  rewrite ER. split; [done|]. cbn. congruence.
Qed.

Lemma register_project_insert_failed_witness :
  fst (insert_project 1 "Q" (with_faults demo_world [stmt_no demo_world])) = inr None /\
  edit_exists 0 (db (with_faults demo_world [stmt_no demo_world])) = false /\
  fst (register_project 1 "Q" canvas_Y (with_faults demo_world [stmt_no demo_world]))
    = inr (None, 0, false) /\
  db (snd (register_project 1 "Q" canvas_Y (with_faults demo_world [stmt_no demo_world])))
    = db (with_faults demo_world [stmt_no demo_world]).
Proof.
  assert (Hi : fst (insert_project 1 "Q" (with_faults demo_world [stmt_no demo_world])) = inr None)
    by (vm_compute; reflexivity).
  assert (He : edit_exists 0 (db (with_faults demo_world [stmt_no demo_world])) = false)
    by (vm_compute; reflexivity).
  split; [exact Hi|]. split; [exact He|].
  exact (register_project_insert_failed 1 "Q" canvas_Y _ Hi He).
Defined.

(** ** The two layouts of the details table *)

Lemma mapM_json_field_ok (l : list detail_row) w kvs w' :
  mapM json_field l w = (inr kvs, w') -> forall eid cols, mkDetail eid (Columns cols) ∉ l.
Proof.
  revert kvs w'. induction l as [|d l IH]; intros kvs w' H eid cols Hin;
    [by apply not_elem_of_nil in Hin|].
  cbn in H. unfold mbind, M_bind, mret, M_ret, raise in H.
  apply elem_of_cons in Hin as [<-|Hin]; [cbn in H; discriminate|].
  destruct d as [e [c|f]]; cbn in H; [discriminate|].
  destruct (mapM json_field l w) as [[x|xs] w1]; [discriminate|].
  exact (IH _ _ eq_refl eid cols Hin).
Qed.

(** [get_canvas_details] cannot read a details row of the eleven-column layout
    (the one [ProjectCRUD] writes): for such an edit it returns [None]. *)
Lemma get_canvas_details_columns eid cols w :
  mkDetail eid (Columns cols) ∈ details (db w) ->
  fst (get_canvas_details (Some eid) w) = inr None.
Proof.
  intros Hin. destruct (get_canvas_details (Some eid) w) as [r w'] eqn:E. cbn.
  unfold get_canvas_details in E. apply catch_all_inv in E as (r0 & E & ->).
  apply transaction_inv in E as [(e & -> & _)|(ts & w1 & a & w2 & Hd1 & Hb & -> & _)]; [done|].
  exfalso. inv_bind Hb. apply stmt_inv in Hm as [Hd _].
  inv_bind Hb. apply get_db_inv in Hm as [Hs ->]. injection Hs as ->.
  inv_bind Hb. apply (mapM_json_field_ok _ _ _ _ Hm eid cols).
  apply list_elem_of_filter. split; [done|]. rewrite Hd, Hd1. exact Hin.
Qed.

(** A project created through [ProjectCRUD.create_project] (with a fresh
    project id) is not readable through [GET /projects/{project_id}/latest]:
    the handler answers [None]. *)
Theorem create_project_then_get_latest_canvas u n cd cm w pid eid w' :
  create_project u n cd cm w = (inr (CreateSuccess pid eid), w') ->
  rows_of pid (edit_history (db w)) = [] ->
  fst (get_latest_canvas pid w') = inr None.
Proof.
  intros E Hr.
  apply create_project_inv in E as [(e & ? & _)|(pid' & eid' & Hres & _ & _ & Hd)];
    [discriminate|].
  injection Hres as <- <-.
  unfold get_latest_canvas, mbind at 1, M_bind at 1.
  destruct (get_latest_edit_id pid w') as [r w1] eqn:E1.
  pose proof (get_latest_edit_id_inv _ _ _ _ E1) as [Hd1 Hlat].
  unfold get_latest_edit_id in E1. apply catch_all_inr in E1 as [[e|] ->];
    [|apply get_canvas_details_none].
  destruct (Hlat e eq_refl) as (row & Ha & <-).
  apply argmax_by_Some in Ha as [Hin _].
  rewrite Hd in Hin. cbn [edit_history] in Hin.
  rewrite rows_of_app, Hr in Hin. unfold rows_of in Hin.
  rewrite filter_cons_True in Hin by done. cbn in Hin.
  apply elem_of_cons in Hin as [->|Hin]; [|by apply not_elem_of_nil in Hin].
  apply (get_canvas_details_columns _ (new_columns cd)).
  rewrite Hd1, Hd. cbn. apply elem_of_app. right. apply elem_of_cons. by left.
Qed.

Lemma create_project_then_get_latest_canvas_witness :
  create_project 1 "P" canvas_X None empty_world = (inr (CreateSuccess 1 1), demo_world) /\
  rows_of 1 (edit_history (db empty_world)) = [] /\
  fst (get_latest_canvas 1 demo_world) = inr None.
Proof.
  assert (E : create_project 1 "P" canvas_X None empty_world = (inr (CreateSuccess 1 1), demo_world))
    by (vm_compute; reflexivity).
  assert (Hr : rows_of 1 (edit_history (db empty_world)) = []) by reflexivity.
  split; [exact E|]. split; [exact Hr|].
  exact (create_project_then_get_latest_canvas 1 "P" canvas_X None empty_world 1 1 demo_world E Hr).
Defined.

(** [get_project_by_id] returns [None] for an id absent from the projects
    table, also when the server fails. *)
Theorem get_project_by_id_absent p w :
  project_exists p (db w) = false -> fst (get_project_by_id p w) = inr None.
Proof.
  intros Hp. destruct (get_project_by_id p w) as [r w'] eqn:E. cbn.
  unfold get_project_by_id in E. apply catch_all_inv in E as (r0 & E & ->).
  apply transaction_inv in E as [(e & -> & _)|(ts & w1 & a & w2 & Hd1 & Hb & -> & _)]; [done|].
  inv_bind Hb. apply stmt_inv in Hm as [Hd _].
  inv_bind Hb. apply get_db_inv in Hm as [Hs ->]. injection Hs as ->.
  apply ret_inv in Hb as [[= ->] _]. rewrite Hd, Hd1.
  unfold project_exists in Hp. induction (projects (db w)) as [|x l IH]; [done|].
  cbn in Hp |- *. apply orb_false_iff in Hp as [Hx Hl]. rewrite Hx. auto.
Qed.

Lemma get_project_by_id_absent_witness :
  project_exists 2 (db demo_world) = false /\ fst (get_project_by_id 2 demo_world) = inr None.
Proof.
  assert (H : project_exists 2 (db demo_world) = false) by (vm_compute; reflexivity).
  split; [exact H|]. exact (get_project_by_id_absent 2 demo_world H).
Defined.

End Canvas.
